(** * Markdown to HTML-node conversion: a shallow embedding of
      [src/inline_markdown.py] and the properties of its specification.

    Python strings are modelled as lists of characters ([list ascii]); a
    character stands for a code point below 256.  Exceptions are modelled
    by an explicit [result] type. *)

From Stdlib Require Import List Ascii Strings.Byte Arith Lia Bool.
From Stdlib Require String DecimalString.
From Equations Require Import Equations.
Import ListNotations.

Set Implicit Arguments.

(** ** Strings *)

Abbreviation str := (list ascii).

Definition str_of_bytes (l : list byte) : str := map ascii_of_byte l.
Definition bytes_of_str (l : str) : list byte := map byte_of_ascii l.

Declare Scope str_scope.
Delimit Scope str_scope with str.
String Notation str str_of_bytes bytes_of_str : str_scope.
Open Scope str_scope.
Open Scope list_scope.

(** The newline character, written ["\n"] in the source. *)
Definition nl : ascii := ascii_of_nat 10.

(** ** Exceptions *)

Inductive exn : Type :=
| ValueError (msg : str)
| IndexError (msg : str).

Inductive result (A : Type) : Type :=
| Ok (a : A)
| Raise (e : exn).
Arguments Ok {A} a.
Arguments Raise {A} e.

Definition bind {A B : Type} (r : result A) (k : A -> result B) : result B :=
  match r with
  | Ok a => k a
  | Raise e => Raise e
  end.

Notation "x <- r ;; k" := (bind r (fun x => k))
  (at level 61, r at next level, right associativity).

(** Matching on a value while remembering which value it was. *)
Definition inspect {A : Type} (x : A) : {y : A | x = y} := exist _ x eq_refl.

Module Py.

(** [s == t] on strings. *)
Fixpoint eqb (s t : str) : bool :=
  match s, t with
  | [], [] => true
  | c :: s', d :: t' => Ascii.eqb c d && eqb s' t'
  | _, _ => false
  end.

(** [s.startswith(p)] *)
Fixpoint startswith (s p : str) {struct p} : bool :=
  match p with
  | [] => true
  | c :: p' =>
      match s with
      | [] => false
      | d :: s' => Ascii.eqb d c && startswith s' p'
      end
  end.

(** [s.endswith(p)] *)
Definition endswith (s p : str) : bool := startswith (rev s) (rev p).

(** First occurrence of [sep] in [s]: the text before it and the text
    after it ([s.partition(sep)] when the separator is found). *)
Fixpoint split_once (s sep : str) : option (str * str) :=
  if startswith s sep then Some ([], skipn (length sep) s)
  else
    match s with
    | [] => None
    | c :: s' =>
        match split_once s' sep with
        | Some (pre, post) => Some (c :: pre, post)
        | None => None
        end
    end.

(** [sep in s] *)
Definition contains (s sep : str) : bool :=
  match split_once s sep with Some _ => true | None => false end.

Lemma split_once_shorter (s sep pre post : str) :
  sep <> [] -> split_once s sep = Some (pre, post) -> length post < length s.
Proof.
  intros Hsep. revert pre post.
  induction s as [|c s IH]; intros pre post H.
  - destruct sep; [congruence|discriminate].
  - cbn [split_once] in H.
    destruct (startswith (c :: s) sep) eqn:E.
    + inversion H; subst. destruct sep as [|d sep]; [congruence|].
      simpl. pose proof (length_skipn (length sep) s). lia.
    + destruct (split_once s sep) as [[a b]|] eqn:E'; [|discriminate].
      inversion H; subst. specialize (IH _ _ eq_refl). simpl. lia.
Qed.

(** [s.split(sep)] for a non-empty separator (Python raises on an empty
    one; callers below check it first). *)
Equations? split (s sep : str) : list str by wf (length s) lt :=
  split s [] := [s];
  split s (d :: sep') with inspect (split_once s (d :: sep')) := {
    | exist _ None _ => [s]
    | exist _ (Some (pre, post)) e => pre :: split post (d :: sep') }.
Proof. eapply split_once_shorter; [|exact e]. discriminate. Qed.

(** [s.count(sep)] for a non-empty separator: the number of
    non-overlapping occurrences, scanning from the left. *)
Equations? count (s sep : str) : nat by wf (length s) lt :=
  count s [] := S (length s);
  count s (d :: sep') with inspect (split_once s (d :: sep')) := {
    | exist _ None _ => 0
    | exist _ (Some (pre, post)) e => S (count post (d :: sep')) }.
Proof. eapply split_once_shorter; [|exact e]. discriminate. Qed.

(** [s.split(sep)], with the exception Python raises on an empty
    separator. *)
Definition split_checked (s sep : str) : result (list str) :=
  match sep with
  | [] => Raise (ValueError "empty separator")
  | _ :: _ => Ok (split s sep)
  end.

(** [s.split(sep, 1)] *)
Definition split1 (s sep : str) : list str :=
  match split_once s sep with
  | Some (pre, post) => [pre; post]
  | None => [s]
  end.

(** [sep.join(l)] *)
Fixpoint join (sep : str) (l : list str) : str :=
  match l with
  | [] => []
  | [x] => x
  | x :: rest => x ++ sep ++ join sep rest
  end.

(** [c.isspace()] for a code point below 256. *)
Definition isspace (c : ascii) : bool :=
  let n := nat_of_ascii c in
  ((9 <=? n) && (n <=? 13)) || ((28 <=? n) && (n <=? 32))
  || (n =? 133) || (n =? 160).

(** [s.lstrip()] *)
Fixpoint lstrip (s : str) : str :=
  match s with
  | [] => []
  | c :: s' => if isspace c then lstrip s' else s
  end.

(** [s.rstrip()] *)
Definition rstrip (s : str) : str := rev (lstrip (rev s)).

(** [s.strip()] *)
Definition strip (s : str) : str := rstrip (lstrip s).

(** [s.lstrip(chars)] *)
Fixpoint lstrip_chars (s chars : str) : str :=
  match s with
  | [] => []
  | c :: s' => if existsb (Ascii.eqb c) chars then lstrip_chars s' chars else s
  end.

(** [str(n)] *)
Definition str_of_nat (n : nat) : str :=
  String.list_ascii_of_string
    (DecimalString.NilEmpty.string_of_uint (Nat.to_uint n)).

End Py.


(** ** Data model *)

Module BlockType.
Inductive t : Type :=
| PARAGRAPH | HEADING | CODE | QUOTE | UNORDERED_LIST | ORDERED_LIST.
End BlockType.

(** Modelled from the spec: [textnode.py] is not part of the sources; the
    span types are the six of the specification's data model (plain text,
    bold, italic, code, link, image). *)
Module TextType.
Inductive t : Type := TEXT | BOLD | ITALIC | CODE | LINK | IMAGE.

Definition eqb (a b : t) : bool :=
  match a, b with
  | TEXT, TEXT | BOLD, BOLD | ITALIC, ITALIC
  | CODE, CODE | LINK, LINK | IMAGE, IMAGE => true
  | _, _ => false
  end.
End TextType.

(** Modelled from the spec: the span holder [TextNode(text, text_type,
    url=None)] of [textnode.py], as the source constructs it. *)
Module TextNode.
Record t : Type := mk {
  text : str;
  text_type : TextType.t;
  url : option str
}.
End TextNode.

(** Modelled from the spec: the render nodes of [htmlnode.py], a leaf with
    a tag and a literal value and a parent with a tag and its children. *)
#[warnings="-register-all"]
Inductive HTMLNode : Type :=
| LeafNode (tag : option str) (value : str) (props : option (list (str * str)))
| ParentNode (tag : str) (children : list HTMLNode).

(** ** Block segmentation *)

Fixpoint markdown_to_blocks_loop (blocks filtered_blocks : list str)
  : list str :=
  match blocks with
  | [] => filtered_blocks
  | block :: rest =>
      if Py.eqb block "" then markdown_to_blocks_loop rest filtered_blocks
      else
        let block := Py.strip block in
        markdown_to_blocks_loop rest (filtered_blocks ++ [block])
  end.

Definition markdown_to_blocks (markdown : str) : list str :=
  let blocks := Py.split markdown [nl; nl] in
  markdown_to_blocks_loop blocks [].

(** ** Block classification *)

(** [re.match(r"^#{1,6} ", block)]: the greedy counted repetition with its
    backtracking, from six [#] down to one. *)
Definition re_match_heading (block : str) : bool :=
  existsb (fun n => Py.startswith block (repeat "#"%char n ++ " "))
          [6; 5; 4; 3; 2; 1].

(** The loop over [enumerate(lines)] with its [break]. *)
Fixpoint ordered_list_loop (lines : list str) (i : nat) : bool :=
  match lines with
  | [] => true
  | line :: rest =>
      let expected_num := i + 1 in
      if negb (Py.startswith line (Py.str_of_nat expected_num ++ ". "))
      then false
      else ordered_list_loop rest (S i)
  end.

Definition block_to_block_type (block : str) : BlockType.t :=
  if Py.startswith block "#" && re_match_heading block
  then BlockType.HEADING
  else if Py.startswith block "```" && Py.endswith block "```"
  then BlockType.CODE
  else
    let lines := Py.split block [nl] in
    if forallb (fun line => Py.startswith line ">") lines
    then BlockType.QUOTE
    else if forallb (fun line => Py.startswith line "- ") lines
    then BlockType.UNORDERED_LIST
    else
      let ordered_list_pattern := ordered_list_loop lines 0 in
      if ordered_list_pattern && (0 <? length lines)
      then BlockType.ORDERED_LIST
      else BlockType.PARAGRAPH.

(** ** Inline tokenizer *)

(** The body of [for i in range(len(sections))] in the delimiter pass. *)
Definition delimiter_step (sections : list str) (text_type : TextType.t)
  (split_nodes : list TextNode.t) (i : nat) : list TextNode.t :=
  let section := nth i sections "" in
  if Py.eqb section "" then split_nodes
  else if i mod 2 =? 0
  then split_nodes ++ [TextNode.mk section TextType.TEXT None]
  else split_nodes ++ [TextNode.mk section text_type None].

Fixpoint split_nodes_delimiter_loop (old_nodes : list TextNode.t)
  (delimiter : str) (text_type : TextType.t) (new_nodes : list TextNode.t)
  : result (list TextNode.t) :=
  match old_nodes with
  | [] => Ok new_nodes
  | old_node :: rest =>
      if negb (TextType.eqb (TextNode.text_type old_node) TextType.TEXT)
      then split_nodes_delimiter_loop rest delimiter text_type
             (new_nodes ++ [old_node])
      else
        sections <- Py.split_checked (TextNode.text old_node) delimiter ;;
        if length sections mod 2 =? 0
        then Raise (ValueError "invalid markdown, formatted section not closed")
        else
          let split_nodes :=
            fold_left (delimiter_step sections text_type)
                      (seq 0 (length sections)) [] in
          split_nodes_delimiter_loop rest delimiter text_type
            (new_nodes ++ split_nodes)
  end.

Definition split_nodes_delimiter (old_nodes : list TextNode.t)
  (delimiter : str) (text_type : TextType.t) : result (list TextNode.t) :=
  split_nodes_delimiter_loop old_nodes delimiter text_type [].

(** *** Regular expressions of the image and link passes *)

(** A greedy starred character class: the longest prefix of characters
    satisfying [p], and the rest. *)
Fixpoint span (p : ascii -> bool) (s : str) : str * str :=
  match s with
  | [] => ([], [])
  | c :: s' =>
      if p c then let (a, b) := span p s' in (c :: a, b) else ([], s)
  end.

(** The character class of the label group: anything but a square
    bracket. *)
Definition not_bracket (c : ascii) : bool :=
  negb (Ascii.eqb c "["%char || Ascii.eqb c "]"%char).

(** The character class of the url group: anything but a parenthesis. *)
Definition not_paren (c : ascii) : bool :=
  negb (Ascii.eqb c "("%char || Ascii.eqb c ")"%char).

(** A match, at the start of [s], of the pattern shared by both passes: an
    opening square bracket, a greedy run of non-bracket characters (group
    1), a closing square bracket, an opening parenthesis, a greedy run of
    non-parenthesis characters (group 2) and a closing parenthesis.  The
    result holds the two groups and the text after the match.  Each starred
    class excludes the character that has to follow it, so the greedy
    choice is the only one that can succeed. *)
Definition match_link_at (s : str) : option (str * str * str) :=
  match s with
  | "["%char :: s1 =>
      let (g1, s2) := span not_bracket s1 in
      match s2 with
      | "]"%char :: "("%char :: s3 =>
          let (g2, s4) := span not_paren s3 in
          match s4 with
          | ")"%char :: s5 => Some (g1, g2, s5)
          | _ => None
          end
      | _ => None
      end
  | _ => None
  end.

(** A match of the image pattern at the start of [s]: an exclamation mark
    followed by the pattern above. *)
Definition match_image_at (s : str) : option (str * str * str) :=
  match s with
  | "!"%char :: s1 => match_link_at s1
  | _ => None
  end.

Lemma span_app (p : ascii -> bool) (s a b : str) :
  span p s = (a, b) -> s = a ++ b.
Proof.
  revert a b. induction s as [|c s IH]; intros a b H; simpl in H.
  - inversion H; subst. reflexivity.
  - destruct (p c).
    + destruct (span p s) as [a' b'] eqn:E. inversion H; subst.
      rewrite (IH _ _ eq_refl) at 1. reflexivity.
    + inversion H; subst. reflexivity.
Qed.

(** Reads off a successful character test in a match on a literal. *)
Ltac char_case c ch H :=
  let Hc := fresh "Hc" in
  destruct (Ascii.eqb_spec c ch) as [->|Hc];
  [| exfalso; revert H; clear - Hc;
     destruct c as [[] [] [] [] [] [] [] []]; try discriminate; congruence].

(** A match spans exactly the literal text of the marker. *)
Lemma match_link_at_sound (s g1 g2 rest : str) :
  match_link_at s = Some (g1, g2, rest) ->
  s = "[" ++ g1 ++ "](" ++ g2 ++ ")" ++ rest.
Proof.
  unfold match_link_at. intros H.
  destruct s as [|c s1]; [discriminate|].
  char_case c "["%char H.
  destruct (span not_bracket s1) as [a s2] eqn:E1.
  apply span_app in E1.
  destruct s2 as [|c2 s2]; [discriminate|].
  char_case c2 "]"%char H.
  destruct s2 as [|c3 s3]; [discriminate|].
  char_case c3 "("%char H.
  destruct (span not_paren s3) as [b s4] eqn:E2.
  apply span_app in E2.
  destruct s4 as [|c4 s5]; [discriminate|].
  char_case c4 ")"%char H.
  inversion H; subst. reflexivity.
Qed.

Lemma match_image_at_sound (s g1 g2 rest : str) :
  match_image_at s = Some (g1, g2, rest) ->
  s = "![" ++ g1 ++ "](" ++ g2 ++ ")" ++ rest.
Proof.
  unfold match_image_at. intros H.
  destruct s as [|c s1]; [discriminate|].
  char_case c "!"%char H.
  apply match_link_at_sound in H. rewrite H. reflexivity.
Qed.

Lemma match_link_at_shorter (s g1 g2 rest : str) :
  match_link_at s = Some (g1, g2, rest) -> length rest < length s.
Proof.
  intros H. apply match_link_at_sound in H. subst s.
  cbn [app length]. rewrite !length_app. cbn [length]. rewrite !length_app.
  cbn [length]. lia.
Qed.

Lemma match_image_at_shorter (s g1 g2 rest : str) :
  match_image_at s = Some (g1, g2, rest) -> length rest < length s.
Proof.
  intros H. apply match_image_at_sound in H. subst s.
  cbn [app length]. rewrite !length_app. cbn [length]. rewrite !length_app.
  cbn [length]. lia.
Qed.

(** [re.findall] for the image pattern: leftmost matches, the scan resuming
    where a match ends and one character further where there is none. *)
Equations? findall_images (s : str) : list (str * str) by wf (length s) lt :=
  findall_images [] := [];
  findall_images (c :: s') with inspect (match_image_at (c :: s')) := {
    | exist _ (Some (alt, url, rest)) e => (alt, url) :: findall_images rest
    | exist _ None _ => findall_images s' }.
Proof. apply (match_image_at_shorter (c :: s')) in e. simpl in e. lia. Qed.

(** [re.findall] for the link pattern.  Its negative lookbehind refuses a
    match right after an exclamation mark; [bang] tells whether the
    character before [s] is one. *)
Equations? findall_links (bang : bool) (s : str) : list (str * str)
  by wf (length s) lt :=
  findall_links _ [] := [];
  findall_links true (c :: s') := findall_links (Ascii.eqb c "!"%char) s';
  findall_links false (c :: s') with inspect (match_link_at (c :: s')) := {
    | exist _ (Some (label, url, rest)) e =>
        (label, url) :: findall_links false rest
    | exist _ None _ => findall_links (Ascii.eqb c "!"%char) s' }.
Proof. apply (match_link_at_shorter (c :: s')) in e. simpl in e. lia. Qed.

Definition extract_markdown_images (text : str) : list (str * str) :=
  findall_images text.

Definition extract_markdown_links (text : str) : list (str * str) :=
  findall_links false text.

(** The loop [for image in images] of the image pass, on the state
    [(original_text, new_nodes)]. *)
Fixpoint split_nodes_image_inner (images : list (str * str))
  (original_text : str) (new_nodes : list TextNode.t)
  : result (str * list TextNode.t) :=
  match images with
  | [] => Ok (original_text, new_nodes)
  | image :: rest =>
      let sections :=
        Py.split1 original_text ("![" ++ fst image ++ "](" ++ snd image ++ ")") in
      if negb (length sections =? 2)
      then Raise (ValueError "invalid markdown, image section not closed")
      else
        let new_nodes :=
          if negb (Py.eqb (nth 0 sections "") "")
          then new_nodes ++ [TextNode.mk (nth 0 sections "") TextType.TEXT None]
          else new_nodes in
        let new_nodes :=
          new_nodes ++ [TextNode.mk (fst image) TextType.IMAGE (Some (snd image))] in
        split_nodes_image_inner rest (nth 1 sections "") new_nodes
  end.

Fixpoint split_nodes_image_loop (old_nodes new_nodes : list TextNode.t)
  : result (list TextNode.t) :=
  match old_nodes with
  | [] => Ok new_nodes
  | old_node :: rest =>
      if negb (TextType.eqb (TextNode.text_type old_node) TextType.TEXT)
      then split_nodes_image_loop rest (new_nodes ++ [old_node])
      else
        let original_text := TextNode.text old_node in
        let images := extract_markdown_images original_text in
        if length images =? 0
        then split_nodes_image_loop rest (new_nodes ++ [old_node])
        else
          st <- split_nodes_image_inner images original_text new_nodes ;;
          let (original_text, new_nodes) := st in
          if negb (Py.eqb original_text "")
          then split_nodes_image_loop rest
                 (new_nodes ++ [TextNode.mk original_text TextType.TEXT None])
          else split_nodes_image_loop rest new_nodes
  end.

Definition split_nodes_image (old_nodes : list TextNode.t)
  : result (list TextNode.t) :=
  split_nodes_image_loop old_nodes [].

(** The loop [for link in links] of the link pass. *)
Fixpoint split_nodes_link_inner (links : list (str * str))
  (original_text : str) (new_nodes : list TextNode.t)
  : result (str * list TextNode.t) :=
  match links with
  | [] => Ok (original_text, new_nodes)
  | link :: rest =>
      let sections :=
        Py.split1 original_text ("[" ++ fst link ++ "](" ++ snd link ++ ")") in
      if negb (length sections =? 2)
      then Raise (ValueError "invalid markdown, link section not closed")
      else
        let new_nodes :=
          if negb (Py.eqb (nth 0 sections "") "")
          then new_nodes ++ [TextNode.mk (nth 0 sections "") TextType.TEXT None]
          else new_nodes in
        let new_nodes :=
          new_nodes ++ [TextNode.mk (fst link) TextType.LINK (Some (snd link))] in
        split_nodes_link_inner rest (nth 1 sections "") new_nodes
  end.

Fixpoint split_nodes_link_loop (old_nodes new_nodes : list TextNode.t)
  : result (list TextNode.t) :=
  match old_nodes with
  | [] => Ok new_nodes
  | old_node :: rest =>
      if negb (TextType.eqb (TextNode.text_type old_node) TextType.TEXT)
      then split_nodes_link_loop rest (new_nodes ++ [old_node])
      else
        let original_text := TextNode.text old_node in
        let links := extract_markdown_links original_text in
        if length links =? 0
        then split_nodes_link_loop rest (new_nodes ++ [old_node])
        else
          st <- split_nodes_link_inner links original_text new_nodes ;;
          let (original_text, new_nodes) := st in
          if negb (Py.eqb original_text "")
          then split_nodes_link_loop rest
                 (new_nodes ++ [TextNode.mk original_text TextType.TEXT None])
          else split_nodes_link_loop rest new_nodes
  end.

Definition split_nodes_link (old_nodes : list TextNode.t)
  : result (list TextNode.t) :=
  split_nodes_link_loop old_nodes [].

Definition text_to_textnodes (text : str) : result (list TextNode.t) :=
  let nodes := [TextNode.mk text TextType.TEXT None] in
  nodes <- split_nodes_delimiter nodes "**" TextType.BOLD ;;
  nodes <- split_nodes_delimiter nodes "_" TextType.ITALIC ;;
  nodes <- split_nodes_delimiter nodes "`" TextType.CODE ;;
  nodes <- split_nodes_image nodes ;;
  nodes <- split_nodes_link nodes ;;
  Ok nodes.

(** ** Block assembler *)

Section Assembler.

(** [text_node_to_html_node] lives in [textnode.py], which is not part
    of the sources: the assembler is parametric in it. *)
Variable text_node_to_html_node : TextNode.t -> result HTMLNode.

Fixpoint text_to_children_loop (text_nodes : list TextNode.t)
  (children : list HTMLNode) : result (list HTMLNode) :=
  match text_nodes with
  | [] => Ok children
  | text_node :: rest =>
      html_node <- text_node_to_html_node text_node ;;
      text_to_children_loop rest (children ++ [html_node])
  end.

Definition text_to_children (text : str) : result (list HTMLNode) :=
  text_nodes <- text_to_textnodes text ;;
  text_to_children_loop text_nodes [].

Definition paragraph_to_html_node (block : str) : result HTMLNode :=
  let lines := Py.split block [nl] in
  let paragraph_text := Py.join " " lines in
  children <- text_to_children paragraph_text ;;
  Ok (ParentNode "p" children).

(** The loop counting the leading [#] characters, with its [break]. *)
Fixpoint heading_level (block : str) (level : nat) : nat :=
  match block with
  | [] => level
  | char :: rest =>
      if Ascii.eqb char "#"%char then heading_level rest (level + 1)
      else level
  end.

Definition heading_to_html_node (block : str) : result HTMLNode :=
  let level := heading_level block 0 in
  if (level <? 1) || (6 <? level)
  then Raise (ValueError ("Invalid heading level: " ++ Py.str_of_nat level))
  else
    let text := skipn (level + 1) block in
    children <- text_to_children text ;;
    Ok (ParentNode ("h" ++ Py.str_of_nat level) children).

Definition code_to_html_node (block : str) : result HTMLNode :=
  if negb (Py.startswith block "```" && Py.endswith block "```")
  then Raise (ValueError "Invalid code block")
  else
    (* block[3:-3] *)
    let text := firstn (length block - 3 - 3) (skipn 3 block) in
    let code_node := LeafNode (Some "code") text None in
    Ok (ParentNode "pre" [code_node]).

Fixpoint quote_lines_loop (lines new_lines : list str)
  : result (list str) :=
  match lines with
  | [] => Ok new_lines
  | line :: rest =>
      if negb (Py.startswith line ">")
      then Raise (ValueError "Invalid quote line")
      else
        quote_lines_loop rest
          (new_lines ++ [Py.lstrip (Py.lstrip_chars line ">")])
  end.

Definition quote_to_html_node (block : str) : result HTMLNode :=
  let lines := Py.split block [nl] in
  new_lines <- quote_lines_loop lines [] ;;
  let content := Py.join [nl] new_lines in
  children <- text_to_children content ;;
  Ok (ParentNode "blockquote" children).

Fixpoint unordered_list_loop (items : list str) (html_items : list HTMLNode)
  : result (list HTMLNode) :=
  match items with
  | [] => Ok html_items
  | item :: rest =>
      let text := skipn 2 item in
      children <- text_to_children text ;;
      unordered_list_loop rest (html_items ++ [ParentNode "li" children])
  end.

Definition unordered_list_to_html_node (block : str) : result HTMLNode :=
  let items := Py.split block [nl] in
  html_items <- unordered_list_loop items [] ;;
  Ok (ParentNode "ul" html_items).

Fixpoint ordered_list_items_loop (items : list str)
  (html_items : list HTMLNode) : result (list HTMLNode) :=
  match items with
  | [] => Ok html_items
  | item :: rest =>
      text <- match Py.split1 item ". " with
              | _ :: text :: _ => Ok text
              | _ => Raise (IndexError "list index out of range")
              end ;;
      children <- text_to_children text ;;
      ordered_list_items_loop rest (html_items ++ [ParentNode "li" children])
  end.

Definition ordered_list_to_html_node (block : str) : result HTMLNode :=
  let items := Py.split block [nl] in
  html_items <- ordered_list_items_loop items [] ;;
  Ok (ParentNode "ol" html_items).

Fixpoint markdown_to_html_node_loop (blocks : list str)
  (children : list HTMLNode) : result (list HTMLNode) :=
  match blocks with
  | [] => Ok children
  | block :: rest =>
      let block_type := block_to_block_type block in
      child <- match block_type with
               | BlockType.PARAGRAPH => paragraph_to_html_node block
               | BlockType.HEADING => heading_to_html_node block
               | BlockType.CODE => code_to_html_node block
               | BlockType.QUOTE => quote_to_html_node block
               | BlockType.UNORDERED_LIST => unordered_list_to_html_node block
               | BlockType.ORDERED_LIST => ordered_list_to_html_node block
               end ;;
      markdown_to_html_node_loop rest (children ++ [child])
  end.

Definition markdown_to_html_node (markdown : str) : result HTMLNode :=
  let blocks := markdown_to_blocks markdown in
  children <- markdown_to_html_node_loop blocks [] ;;
  Ok (ParentNode "div" children).

End Assembler.

(** * The specification's vocabulary *)

(** The classifier's rules, as the specification words them. *)
Module Rules.

(** One to six [#] characters followed by a space. *)
Definition heading (block : str) : Prop :=
  exists n rest,
    1 <= n <= 6 /\ block = repeat "#"%char n ++ " " ++ rest.

(** Three backticks at the start and three at the end. *)
Definition code (block : str) : Prop :=
  (exists rest, block = "```" ++ rest) /\
  (exists front, block = front ++ "```").

(** Every line starts with [>]. *)
Definition quote (lines : list str) : Prop :=
  Forall (fun line => exists rest, line = ">" ++ rest) lines.

(** Every line starts with a dash and a space. *)
Definition unordered_list (lines : list str) : Prop :=
  Forall (fun line => exists rest, line = "- " ++ rest) lines.

(** The line at position [i], counted from zero, starts with the decimal
    numeral of [i + 1], a full stop and a space. *)
Definition ordered_list (lines : list str) : Prop :=
  forall i line,
    nth_error lines i = Some line ->
    exists rest, line = Py.str_of_nat (i + 1) ++ ". " ++ rest.

End Rules.

(** The delimiter pass, as the specification words it. *)
Module Spans.

(** The segments of [s] with their positions, the empty ones dropped;
    those at even positions become Text spans, those at odd positions
    spans of the target type. *)
Definition delimiter_spans (s delimiter : str) (text_type : TextType.t)
  : list TextNode.t :=
  let sections := Py.split s delimiter in
  map (fun p => TextNode.mk (snd p)
                  (if Nat.even (fst p) then TextType.TEXT else text_type)
                  None)
      (filter (fun p => negb (Py.eqb (snd p) ""))
              (combine (seq 0 (length sections)) sections)).

(** Text spans are replaced by their spans, the others stay in place. *)
Definition delimiter_pass (nodes : list TextNode.t) (delimiter : str)
  (text_type : TextType.t) : list TextNode.t :=
  flat_map (fun node =>
              match TextNode.text_type node with
              | TextType.TEXT =>
                  delimiter_spans (TextNode.text node) delimiter text_type
              | _ => [node]
              end) nodes.

(** The error of the delimiter pass. *)
Definition unclosed : exn :=
  ValueError "invalid markdown, formatted section not closed".

(** A text without inline markers: none of the three delimiters occurs
    in it and neither pattern matches anywhere in it. *)
Definition no_markers (text : str) : Prop :=
  Py.contains text "**" = false /\
  Py.contains text "_" = false /\
  Py.contains text "`" = false /\
  extract_markdown_images text = [] /\
  extract_markdown_links text = [].

(** An exception names a delimiter when its message contains it. *)
Definition names_delimiter (e : exn) (delimiter : str) : Prop :=
  match e with
  | ValueError msg | IndexError msg => Py.contains msg delimiter = true
  end.

End Spans.

(** The quote assembler's stripping rule. *)
Module Quote.

(** The rule as the specification words it: one leading [>] and one
    following space or tab are dropped. *)
Definition strip_one (line : str) : str :=
  match line with
  | ">"%char :: rest =>
      match rest with
      | c :: r =>
          if Ascii.eqb c " "%char || Ascii.eqb c (ascii_of_nat 9)
          then r else rest
      | [] => []
      end
  | _ => line
  end.

(** The quote node that rule would give. *)
Definition as_stated
  (text_node_to_html_node : TextNode.t -> result HTMLNode) (block : str)
  : result HTMLNode :=
  let lines := Py.split block [nl] in
  children <- text_to_children text_node_to_html_node
                (Py.join [nl] (map strip_one lines)) ;;
  Ok (ParentNode "blockquote" children).

(** [new] is [line] without its whole run of leading [>] characters
    and the whole run of whitespace that follows it. *)
Definition stripped (line new : str) : Prop :=
  exists k ws,
    1 <= k /\
    line = repeat ">"%char k ++ ws ++ new /\
    forallb Py.isspace ws = true /\
    (forall r, ws ++ new <> ">"%char :: r) /\
    (forall c r, new = c :: r -> Py.isspace c = false).

(** A sample renderer of spans: a leaf holding the span's text. *)
Definition plain_leaf (node : TextNode.t) : result HTMLNode :=
  Ok (LeafNode None (TextNode.text node) None).

End Quote.

(** What the assembler's nodes are made of. *)
Module Items.

(** One [li] node per text, each over the children of its tokenized
    text; the first failure is the result. *)
Fixpoint li_nodes
  (text_node_to_html_node : TextNode.t -> result HTMLNode)
  (texts : list str) : result (list HTMLNode) :=
  match texts with
  | [] => Ok []
  | text :: rest =>
      children <- text_to_children text_node_to_html_node text ;;
      items <- li_nodes text_node_to_html_node rest ;;
      Ok (ParentNode "li" children :: items)
  end.

(** The lines are numbered from [i + 1] on, and [texts] are what follows
    each number, its full stop and its space. *)
Fixpoint numbered (i : nat) (lines texts : list str) : Prop :=
  match lines, texts with
  | [], [] => True
  | line :: lines', text :: texts' =>
      line = Py.str_of_nat (i + 1) ++ ". " ++ text /\
      numbered (S i) lines' texts'
  | _, _ => False
  end.

(** The node of one block: the assembler of the block's type. *)
Definition block_node
  (text_node_to_html_node : TextNode.t -> result HTMLNode) (block : str)
  : result HTMLNode :=
  match block_to_block_type block with
  | BlockType.PARAGRAPH => paragraph_to_html_node text_node_to_html_node block
  | BlockType.HEADING => heading_to_html_node text_node_to_html_node block
  | BlockType.CODE => code_to_html_node block
  | BlockType.QUOTE => quote_to_html_node text_node_to_html_node block
  | BlockType.UNORDERED_LIST =>
      unordered_list_to_html_node text_node_to_html_node block
  | BlockType.ORDERED_LIST =>
      ordered_list_to_html_node text_node_to_html_node block
  end.

(** A newline becomes a space, any other character stays. *)
Definition unwrap (c : ascii) : ascii :=
  if Ascii.eqb c nl then " "%char else c.

(** An error the assembler can pass on: the tokenizer's, or one the span
    renderer raises on some span. *)
Definition passed_on
  (text_node_to_html_node : TextNode.t -> result HTMLNode) (e : exn)
  : Prop :=
  e = ValueError "invalid markdown, formatted section not closed" \/
  exists node, text_node_to_html_node node = Raise e.

End Items.

(** The markdown a span stands for. *)
Module Markup.

Definition source_text (node : TextNode.t) : str :=
  let target := match TextNode.url node with Some u => u | None => "" end in
  match TextNode.text_type node with
  | TextType.IMAGE => "![" ++ TextNode.text node ++ "](" ++ target ++ ")"
  | TextType.LINK => "[" ++ TextNode.text node ++ "](" ++ target ++ ")"
  | _ => TextNode.text node
  end.

Definition source (nodes : list TextNode.t) : str :=
  concat (map source_text nodes).

(** A span that is not an empty piece of text: its text is not empty, or
    it is an image or a link. *)
Definition solid (node : TextNode.t) : Prop :=
  TextNode.text node <> [] \/
  TextNode.text_type node = TextType.IMAGE \/
  TextNode.text_type node = TextType.LINK.

(** A span the delimiter pass has nothing left to do with: if it is a
    Text span, it has no url, its text is not empty and the delimiter
    does not occur in it. *)
Definition settled (delimiter : str) (node : TextNode.t) : Prop :=
  TextNode.text_type node = TextType.TEXT ->
  TextNode.url node = None /\
  TextNode.text node <> [] /\
  Py.contains (TextNode.text node) delimiter = false.

(** A predicate on spans that only speaks of the Text spans' texts. *)
Definition on_text (P : str -> Prop) (node : TextNode.t) : Prop :=
  TextNode.text_type node = TextType.TEXT -> P (TextNode.text node).

(** What holds of every pair a scan returns: its marker, opened by [bang]
    for an image, is in the text and its groups stay within their
    character classes. *)
Definition well_formed (bang : str) (s : str) (pair : str * str) : Prop :=
  Py.contains s (bang ++ "[" ++ fst pair ++ "](" ++ snd pair ++ ")") = true /\
  forallb not_bracket (fst pair) = true /\
  forallb not_paren (snd pair) = true.

End Markup.

(** * Properties *)

(** ** Facts on the string primitives *)

Module PyFacts.

Lemma eqb_spec (s t : str) : reflect (s = t) (Py.eqb s t).
Proof.
  revert t. induction s as [|c s IH]; intros [|d t]; simpl;
    try (constructor; congruence).
  destruct (Ascii.eqb_spec c d) as [->|Hcd]; simpl.
  - destruct (IH t) as [->|Hst]; constructor; congruence.
  - constructor; congruence.
Qed.

Lemma eqb_nil (s : str) : Py.eqb s "" = true <-> s = [].
Proof. destruct (eqb_spec s ""); split; congruence. Qed.

Lemma startswith_iff (s p : str) :
  Py.startswith s p = true <-> exists rest, s = p ++ rest.
Proof.
  revert s. induction p as [|c p IH]; intros s; simpl.
  - split; [eauto | reflexivity].
  - destruct s as [|d s].
    + split; [discriminate | intros [r Hr]; discriminate].
    + rewrite andb_true_iff, IH. split.
      * intros [Hc [r ->]]. apply Ascii.eqb_eq in Hc. subst. eauto.
      * intros [r Hr]. inversion Hr; subst. split; [apply Ascii.eqb_refl|eauto].
Qed.

Lemma startswith_app (p rest : str) : Py.startswith (p ++ rest) p = true.
Proof. apply startswith_iff. eauto. Qed.

Lemma startswith_skipn (s p : str) :
  Py.startswith s p = true -> s = p ++ skipn (length p) s.
Proof.
  intros H. apply startswith_iff in H as [r ->].
  rewrite skipn_app, skipn_all, Nat.sub_diag. reflexivity.
Qed.

Lemma endswith_iff (s p : str) :
  Py.endswith s p = true <-> exists front, s = front ++ p.
Proof.
  unfold Py.endswith. rewrite startswith_iff. split.
  - intros [r Hr]. exists (rev r).
    rewrite <- (rev_involutive s), Hr, rev_app_distr, rev_involutive.
    reflexivity.
  - intros [f ->]. exists (rev f). apply rev_app_distr.
Qed.

(** [split_once] cuts at an occurrence of the separator... *)
Lemma split_once_sound (s sep pre post : str) :
  Py.split_once s sep = Some (pre, post) -> s = pre ++ sep ++ post.
Proof.
  revert pre post. induction s as [|c s IH]; intros pre post H.
  - cbn [Py.split_once] in H.
    destruct (Py.startswith [] sep) eqn:E; [|discriminate].
    inversion H; subst. apply startswith_skipn in E. exact E.
  - cbn [Py.split_once] in H.
    destruct (Py.startswith (c :: s) sep) eqn:E.
    + inversion H; subst. apply startswith_skipn in E. exact E.
    + destruct (Py.split_once s sep) as [[a b]|] eqn:E'; [|discriminate].
      inversion H; subst. rewrite (IH _ _ eq_refl) at 1. reflexivity.
Qed.

Lemma skipn_keeps_suffix (n : nat) (a sep b : str) :
  n = length sep -> exists x, skipn n (a ++ sep ++ b) = x ++ b.
Proof.
  intros ->. exists (firstn (length a) (skipn (length sep) (a ++ sep ++ b))).
  rewrite <- (firstn_skipn (length a) (skipn (length sep) (a ++ sep ++ b))) at 1.
  f_equal. rewrite skipn_skipn, app_assoc, <- length_app.
  rewrite skipn_app, skipn_all, Nat.sub_diag. reflexivity.
Qed.

(** ... and finds one whenever there is one, no later than any given
    occurrence: what follows that occurrence is a suffix of [post]. *)
Lemma split_once_complete (a sep b : str) :
  exists pre post x,
    Py.split_once (a ++ sep ++ b) sep = Some (pre, post) /\ post = x ++ b.
Proof.
  induction a as [|c a IH].
  - destruct (skipn_keeps_suffix [] sep b eq_refl) as [x Hx].
    exists [], (skipn (length sep) ([] ++ sep ++ b)), x. split; [|exact Hx].
    simpl app. destruct (sep ++ b) as [|c s] eqn:E.
    + destruct sep; [|discriminate]. reflexivity.
    + cbn [Py.split_once]. rewrite <- E, startswith_app. reflexivity.
  - destruct IH as (pre & post & x & H & ->).
    simpl app. cbn [Py.split_once].
    destruct (Py.startswith (c :: a ++ sep ++ b) sep) eqn:E.
    + destruct (skipn_keeps_suffix (c :: a) sep b eq_refl) as [y Hy].
      exists [], (skipn (length sep) (c :: a ++ sep ++ b)), y.
      split; [reflexivity|exact Hy].
    + rewrite H. exists (c :: pre), (x ++ b), x. auto.
Qed.

Lemma split_once_none (s sep : str) :
  Py.split_once s sep = None ->
  forall a b, s <> a ++ sep ++ b.
Proof.
  intros H a b ->.
  destruct (split_once_complete a sep b) as (pre & post & x & H' & _).
  congruence.
Qed.

Lemma contains_iff (s sep : str) :
  Py.contains s sep = true <-> exists a b, s = a ++ sep ++ b.
Proof.
  unfold Py.contains. split.
  - destruct (Py.split_once s sep) as [[pre post]|] eqn:E; [|discriminate].
    intros _. apply split_once_sound in E. eauto.
  - intros (a & b & ->).
    destruct (split_once_complete a sep b) as (pre & post & x & -> & _).
    reflexivity.
Qed.

(** *** [split] and [count] *)

Lemma split_unfold (s sep : str) :
  sep <> [] ->
  Py.split s sep =
  match Py.split_once s sep with
  | Some (pre, post) => pre :: Py.split post sep
  | None => [s]
  end.
Proof.
  funelim (Py.split s sep); intros Hsep.
  - congruence.
  - rewrite e. reflexivity.
  - rewrite e. reflexivity.
Qed.

Lemma count_unfold (s sep : str) :
  sep <> [] ->
  Py.count s sep =
  match Py.split_once s sep with
  | Some (pre, post) => S (Py.count post sep)
  | None => 0
  end.
Proof.
  funelim (Py.count s sep); intros Hsep.
  - congruence.
  - rewrite e. reflexivity.
  - rewrite e. reflexivity.
Qed.

(** The pieces are one more than the occurrences. *)
Lemma split_length (s sep : str) :
  sep <> [] -> length (Py.split s sep) = S (Py.count s sep).
Proof.
  funelim (Py.split s sep); intros Hsep.
  - congruence.
  - rewrite (count_unfold s Hsep), e. simpl. f_equal. apply H. exact Hsep.
  - rewrite (count_unfold s Hsep), e. reflexivity.
Qed.

Lemma split_not_nil (s sep : str) : Py.split s sep <> [].
Proof. funelim (Py.split s sep); discriminate. Qed.

(** A string without the separator is its own single piece. *)
Lemma split_absent (s sep : str) :
  Py.contains s sep = false -> Py.split s sep = [s].
Proof.
  unfold Py.contains. intros H. destruct sep as [|d sep'].
  - simp split. reflexivity.
  - rewrite split_unfold by discriminate.
    destruct (Py.split_once s (d :: sep')) as [[pre post]|];
      [discriminate | reflexivity].
Qed.

(** Joining the pieces with the separator gives the string back, so the
    pieces are in the order of the string. *)
Lemma join_split (s sep : str) : Py.join sep (Py.split s sep) = s.
Proof.
  funelim (Py.split s sep).
  - reflexivity.
  - pose proof (split_once_sound _ _ e) as E0. rewrite E0.
    pose proof (@split_not_nil post (d :: sep')) as Hne.
    destruct (Py.split post (d :: sep')) as [|x l] eqn:E; [congruence|].
    cbn [Py.join]. rewrite <- H. reflexivity.
  - reflexivity.
Qed.

(** The first piece is a prefix of the string. *)
Lemma split_head (s sep : str) :
  exists first others rest,
    Py.split s sep = first :: others /\ s = first ++ rest.
Proof.
  funelim (Py.split s sep).
  - exists s, [], []. rewrite app_nil_r. auto.
  - pose proof (split_once_sound _ _ e) as E0. eauto.
  - exists s, [], []. rewrite app_nil_r. auto.
Qed.

(** *** [strip] *)

Lemma lstrip_head (s : str) (c : ascii) (r : str) :
  Py.lstrip s = c :: r -> Py.isspace c = false.
Proof.
  induction s as [|d s IH]; simpl; [discriminate|].
  destruct (Py.isspace d) eqn:E; [exact IH|].
  intros H. inversion H; subst. exact E.
Qed.

Lemma lstrip_suffix (s : str) :
  exists ws, s = ws ++ Py.lstrip s /\ forallb Py.isspace ws = true.
Proof.
  induction s as [|d s (ws & IH & Hws)]; simpl.
  - exists []. auto.
  - destruct (Py.isspace d) eqn:E.
    + exists (d :: ws). simpl. rewrite E, Hws. split; [congruence|reflexivity].
    + exists []. auto.
Qed.

End PyFacts.

(** ** Block classifier *)

Module ClassifierFacts.

Lemma heading_iff (block : str) :
  Py.startswith block "#" && re_match_heading block = true <->
  Rules.heading block.
Proof.
  unfold re_match_heading, Rules.heading.
  rewrite andb_true_iff, existsb_exists. split.
  - intros [_ (n & Hn & H)]. apply PyFacts.startswith_iff in H as [rest ->].
    exists n, rest. rewrite <- app_assoc. split; [|reflexivity].
    simpl in Hn. lia.
  - intros (n & rest & Hn & ->). split.
    + destruct n as [|n]; [lia|]. reflexivity.
    + exists n. split.
      * simpl. lia.
      * rewrite app_assoc. apply PyFacts.startswith_app.
Qed.

Lemma code_iff (block : str) :
  Py.startswith block "```" && Py.endswith block "```" = true <->
  Rules.code block.
Proof.
  unfold Rules.code.
  rewrite andb_true_iff, PyFacts.startswith_iff, PyFacts.endswith_iff.
  reflexivity.
Qed.

Lemma all_startswith_iff (p : str) (lines : list str) :
  forallb (fun line => Py.startswith line p) lines = true <->
  Forall (fun line => exists rest, line = p ++ rest) lines.
Proof.
  rewrite forallb_forall, Forall_forall.
  split; intros H line Hin; apply PyFacts.startswith_iff, H, Hin.
Qed.

Lemma ordered_list_loop_iff (lines : list str) (i : nat) :
  ordered_list_loop lines i = true <->
  forall j line,
    nth_error lines j = Some line ->
    exists rest, line = Py.str_of_nat (i + j + 1) ++ ". " ++ rest.
Proof.
  revert i. induction lines as [|l lines IH]; intros i;
    cbn [ordered_list_loop].
  - split; [|reflexivity]. intros _ [|j] line; discriminate.
  - destruct (Py.startswith l (Py.str_of_nat (i + 1) ++ ". ")) eqn:E;
      cbn [negb].
    + rewrite IH. apply PyFacts.startswith_iff in E as [r Hr]. split.
      * intros H [|j] line Hj; simpl in Hj.
        -- assert (line = l) as -> by congruence.
           rewrite Nat.add_0_r. exists r.
           rewrite Hr, <- app_assoc. reflexivity.
        -- replace (i + S j + 1) with (S i + j + 1) by lia. apply H, Hj.
      * intros H j line Hj.
        replace (S i + j + 1) with (i + S j + 1) by lia.
        apply H. exact Hj.
    + split; [discriminate|]. intros H.
      destruct (H 0 l eq_refl) as [r Hr]. rewrite Nat.add_0_r in Hr.
      rewrite Hr, app_assoc, PyFacts.startswith_app in E. discriminate.
Qed.

Lemma ordered_list_iff (lines : list str) :
  ordered_list_loop lines 0 && (0 <? length lines) = true <->
  lines <> [] /\ Rules.ordered_list lines.
Proof.
  rewrite andb_true_iff, ordered_list_loop_iff, Nat.ltb_lt.
  unfold Rules.ordered_list. simpl. split.
  - intros [H Hlen]. split; [|exact H].
    intros ->. simpl in Hlen. lia.
  - intros [Hne H]. split; [exact H|].
    destruct lines; [congruence|simpl; lia].
Qed.

(** A block whose first line starts with [>] starts with [>] itself. *)
Lemma quote_block_head (block : str) :
  Rules.quote (Py.split block [nl]) -> exists rest, block = ">" ++ rest.
Proof.
  intros H.
  destruct (PyFacts.split_head block [nl]) as (first & others & rest & E & ->).
  rewrite E in H. inversion H as [|? ? [r ->] _]; subst.
  exists (r ++ rest). reflexivity.
Qed.

Lemma quote_not_heading (block : str) :
  Rules.quote (Py.split block [nl]) -> ~ Rules.heading block.
Proof.
  intros H (n & rest & Hn & E).
  apply quote_block_head in H as [r ->].
  destruct n as [|n]; [lia|]. discriminate.
Qed.

Lemma quote_not_code (block : str) :
  Rules.quote (Py.split block [nl]) -> ~ Rules.code block.
Proof.
  intros H [[rest E] _].
  apply quote_block_head in H as [r ->]. discriminate.
Qed.

(** The classifier as a decision list over the rules. *)
Lemma classify_cases (block : str) :
  let lines := Py.split block [nl] in
  (Rules.heading block /\ block_to_block_type block = BlockType.HEADING) \/
  (~ Rules.heading block /\ Rules.code block /\
   block_to_block_type block = BlockType.CODE) \/
  (~ Rules.heading block /\ ~ Rules.code block /\ Rules.quote lines /\
   block_to_block_type block = BlockType.QUOTE) \/
  (~ Rules.heading block /\ ~ Rules.code block /\ ~ Rules.quote lines /\
   Rules.unordered_list lines /\
   block_to_block_type block = BlockType.UNORDERED_LIST) \/
  (~ Rules.heading block /\ ~ Rules.code block /\ ~ Rules.quote lines /\
   ~ Rules.unordered_list lines /\ Rules.ordered_list lines /\
   block_to_block_type block = BlockType.ORDERED_LIST) \/
  (~ Rules.heading block /\ ~ Rules.code block /\ ~ Rules.quote lines /\
   ~ Rules.unordered_list lines /\ ~ Rules.ordered_list lines /\
   block_to_block_type block = BlockType.PARAGRAPH).
Proof.
  intros lines. unfold block_to_block_type. fold lines.
  pose proof (heading_iff block) as Hh.
  pose proof (code_iff block) as Hc.
  pose proof (all_startswith_iff ">" lines) as Hq.
  pose proof (all_startswith_iff "- " lines) as Hu.
  pose proof (ordered_list_iff lines) as Ho.
  assert (lines <> []) as Hne by apply PyFacts.split_not_nil.
  fold (Rules.quote lines) in Hq. fold (Rules.unordered_list lines) in Hu.
  destruct (Py.startswith block "#" && re_match_heading block).
  { left. split; [apply Hh|]; reflexivity. }
  right. assert (~ Rules.heading block) as Nh by (rewrite <- Hh; discriminate).
  destruct (Py.startswith block "```" && Py.endswith block "```").
  { left. repeat split; try assumption; apply Hc; reflexivity. }
  right. assert (~ Rules.code block) as Nc by (rewrite <- Hc; discriminate).
  destruct (forallb (fun line => Py.startswith line ">") lines).
  { left. repeat split; try assumption. apply Hq; reflexivity. }
  right. assert (~ Rules.quote lines) as Nq by (rewrite <- Hq; discriminate).
  destruct (forallb (fun line => Py.startswith line "- ") lines).
  { left. repeat split; try assumption. apply Hu; reflexivity. }
  right.
  assert (~ Rules.unordered_list lines) as Nu by (rewrite <- Hu; discriminate).
  destruct (ordered_list_loop lines 0 && (0 <? length lines)).
  { left. repeat split; try assumption. apply Ho; reflexivity. }
  right. repeat split; try assumption.
  intros Hol. assert (false = true) by (apply Ho; auto). discriminate.
Qed.

End ClassifierFacts.

(** ** Block segmenter *)

Module SegmenterFacts.

Lemma strip_no_leading (s : str) (c : ascii) (r : str) :
  Py.strip s = c :: r -> Py.isspace c = false.
Proof.
  unfold Py.strip, Py.rstrip. intros H.
  destruct (PyFacts.lstrip_suffix (rev (Py.lstrip s))) as (ws & E & _).
  apply (f_equal (@rev ascii)) in E.
  rewrite rev_involutive, rev_app_distr, H in E.
  apply (PyFacts.lstrip_head s E).
Qed.

Lemma strip_no_trailing (s : str) (c : ascii) (r : str) :
  Py.strip s = r ++ [c] -> Py.isspace c = false.
Proof.
  unfold Py.strip, Py.rstrip. intros H.
  apply (f_equal (@rev ascii)) in H.
  rewrite rev_involutive, rev_app_distr in H.
  apply (PyFacts.lstrip_head _ H).
Qed.

Lemma markdown_to_blocks_loop_eq (blocks filtered_blocks : list str) :
  markdown_to_blocks_loop blocks filtered_blocks =
  filtered_blocks
    ++ map Py.strip (filter (fun b => negb (Py.eqb b "")) blocks).
Proof.
  revert filtered_blocks.
  induction blocks as [|b blocks IH]; intros acc; simpl.
  - rewrite app_nil_r. reflexivity.
  - destruct (Py.eqb b ""); simpl; rewrite IH; [reflexivity|].
    rewrite <- app_assoc. reflexivity.
Qed.

(** What the segmenter does guarantee: the blocks are the stripped
    non-empty fragments, in the order of the document, so none has
    leading or trailing whitespace. *)
Lemma markdown_to_blocks_eq (markdown : str) :
  markdown_to_blocks markdown =
  map Py.strip
    (filter (fun b => negb (Py.eqb b "")) (Py.split markdown [nl; nl])).
Proof. apply markdown_to_blocks_loop_eq. Qed.

Lemma markdown_to_blocks_stripped (markdown block : str) :
  In block (markdown_to_blocks markdown) ->
  (forall c r, block = c :: r -> Py.isspace c = false) /\
  (forall c r, block = r ++ [c] -> Py.isspace c = false).
Proof.
  rewrite markdown_to_blocks_eq, in_map_iff. intros (b & <- & _). split.
  - intros c r. apply strip_no_leading.
  - intros c r. apply strip_no_trailing.
Qed.

End SegmenterFacts.

(** C1: the segmenter does not discard a whitespace-only fragment: only
    the fragments that are empty before trimming are skipped.  Text
    followed by three newlines, and a line holding one space between two
    blank lines, both leave an empty block in the result. *)
Theorem markdown_to_blocks_keeps_blank_fragment :
  markdown_to_blocks ("a" ++ [nl; nl; nl]) = ["a"; ""] /\
  markdown_to_blocks ("a" ++ [nl; nl] ++ " " ++ [nl; nl] ++ "b")
  = ["a"; ""; "b"].
Proof. split; reflexivity. Qed.

(** ** Inline tokenizer: the delimiter pass *)

Module DelimiterFacts.

Lemma mod2_even (i : nat) : (i mod 2 =? 0) = Nat.even i.
Proof.
  destruct (Nat.even i) eqn:E.
  - apply Nat.even_spec in E as [k ->]. apply Nat.eqb_eq.
    rewrite Nat.mul_comm. apply Nat.Div0.mod_mul.
  - apply Nat.eqb_neq. intros H.
    assert (Nat.even i = true) as E'; [|congruence].
    apply Nat.even_spec. exists (i / 2).
    pose proof (Nat.div_mod_eq i 2). lia.
Qed.

(** The loop over the positions builds the spans of the non-empty
    sections, each typed by the parity of its position. *)
Lemma fold_sections (text_type : TextType.t) (pre l : list str)
  (acc : list TextNode.t) :
  fold_left (delimiter_step (pre ++ l) text_type)
            (seq (length pre) (length l)) acc =
  acc ++
  map (fun p => TextNode.mk (snd p)
                  (if Nat.even (fst p) then TextType.TEXT else text_type)
                  None)
      (filter (fun p => negb (Py.eqb (snd p) ""))
              (combine (seq (length pre) (length l)) l)).
Proof.
  revert pre acc. induction l as [|x l IH]; intros pre acc.
  - simpl. rewrite app_nil_r. reflexivity.
  - cbn [length seq fold_left combine filter snd].
    replace (pre ++ x :: l) with ((pre ++ [x]) ++ l)
      by (rewrite <- app_assoc; reflexivity).
    replace (S (length pre)) with (length (pre ++ [x]))
      by (rewrite length_app; simpl; lia).
    rewrite IH. unfold delimiter_step at 1.
    rewrite <- app_assoc. cbn [app].
    rewrite app_nth2 by lia. rewrite Nat.sub_diag. cbn [nth].
    destruct (Py.eqb x ""); cbn [negb].
    + reflexivity.
    + cbn [map fst snd]. rewrite mod2_even.
      destruct (Nat.even (length pre)); rewrite <- app_assoc; reflexivity.
Qed.

Lemma fold_sections_all (text_type : TextType.t) (s delimiter : str) :
  let sections := Py.split s delimiter in
  fold_left (delimiter_step sections text_type)
            (seq 0 (length sections)) [] =
  Spans.delimiter_spans s delimiter text_type.
Proof. intros sections. exact (fold_sections text_type [] sections []). Qed.

Lemma sections_parity (s delimiter : str) :
  delimiter <> [] ->
  (length (Py.split s delimiter) mod 2 =? 0) =
  Nat.odd (Py.count s delimiter).
Proof.
  intros Hd. rewrite (PyFacts.split_length s Hd), mod2_even.
  apply Nat.even_succ.
Qed.

Lemma delimiter_spans_nonempty (s delimiter : str) (text_type : TextType.t)
  (node : TextNode.t) :
  In node (Spans.delimiter_spans s delimiter text_type) ->
  TextNode.text node <> [].
Proof.
  unfold Spans.delimiter_spans. rewrite in_map_iff.
  intros ([i x] & <- & Hin). apply filter_In in Hin as [_ Hne].
  simpl in *. intros ->. discriminate.
Qed.

Lemma not_text (t : TextType.t) :
  negb (TextType.eqb t TextType.TEXT) = true <-> t <> TextType.TEXT.
Proof. destruct t; simpl; split; congruence. Qed.

(** A step of the pass on a Text span. *)
Lemma loop_text (node : TextNode.t) (rest : list TextNode.t)
  (delimiter : str) (text_type : TextType.t) (acc : list TextNode.t) :
  delimiter <> [] ->
  TextNode.text_type node = TextType.TEXT ->
  split_nodes_delimiter_loop (node :: rest) delimiter text_type acc =
  if Nat.odd (Py.count (TextNode.text node) delimiter)
  then Raise Spans.unclosed
  else split_nodes_delimiter_loop rest delimiter text_type
         (acc ++ Spans.delimiter_spans (TextNode.text node) delimiter text_type).
Proof.
  intros Hd Ht. cbn [split_nodes_delimiter_loop]. rewrite Ht. cbn [TextType.eqb negb].
  destruct delimiter as [|d delimiter]; [congruence|].
  cbn [Py.split_checked bind].
  rewrite sections_parity by exact Hd.
  rewrite fold_sections_all. reflexivity.
Qed.

(** A step of the pass on any other span. *)
Lemma loop_other (node : TextNode.t) (rest : list TextNode.t)
  (delimiter : str) (text_type : TextType.t) (acc : list TextNode.t) :
  TextNode.text_type node <> TextType.TEXT ->
  split_nodes_delimiter_loop (node :: rest) delimiter text_type acc =
  split_nodes_delimiter_loop rest delimiter text_type (acc ++ [node]).
Proof.
  intros Ht. cbn [split_nodes_delimiter_loop].
  apply not_text in Ht. rewrite Ht. reflexivity.
Qed.

Lemma loop_balanced (nodes : list TextNode.t) (delimiter : str)
  (text_type : TextType.t) (acc : list TextNode.t) :
  delimiter <> [] ->
  Forall (fun node => TextNode.text_type node = TextType.TEXT ->
                      Nat.even (Py.count (TextNode.text node) delimiter) = true)
         nodes ->
  split_nodes_delimiter_loop nodes delimiter text_type acc =
  Ok (acc ++ Spans.delimiter_pass nodes delimiter text_type).
Proof.
  intros Hd H. revert acc. induction H as [|node nodes Hn _ IH]; intros acc.
  - simpl. rewrite app_nil_r. reflexivity.
  - cbn [Spans.delimiter_pass flat_map].
    destruct (TextNode.text_type node) eqn:Ht;
      try (rewrite loop_other by congruence; rewrite IH, <- app_assoc;
           reflexivity).
    rewrite loop_text by assumption.
    unfold Nat.odd. rewrite (Hn eq_refl). cbn [negb].
    rewrite IH, <- app_assoc. reflexivity.
Qed.

Lemma loop_unbalanced (nodes : list TextNode.t) (delimiter : str)
  (text_type : TextType.t) (acc : list TextNode.t) :
  delimiter <> [] ->
  Exists (fun node => TextNode.text_type node = TextType.TEXT /\
                      Nat.odd (Py.count (TextNode.text node) delimiter) = true)
         nodes ->
  split_nodes_delimiter_loop nodes delimiter text_type acc = Raise Spans.unclosed.
Proof.
  intros Hd H. revert acc.
  induction H as [node nodes [Ht Hodd]|node nodes _ IH]; intros acc.
  - rewrite loop_text by assumption. rewrite Hodd. reflexivity.
  - destruct (TextNode.text_type node) eqn:Ht;
      try (rewrite loop_other by congruence; apply IH).
    rewrite loop_text by assumption.
    destruct (Nat.odd _); [reflexivity|apply IH].
Qed.

(** The pass either succeeds or raises the one unclosed-section error. *)
Lemma loop_outcome (nodes : list TextNode.t) (delimiter : str)
  (text_type : TextType.t) (acc : list TextNode.t) :
  delimiter <> [] ->
  (exists out, split_nodes_delimiter_loop nodes delimiter text_type acc = Ok out)
  \/ split_nodes_delimiter_loop nodes delimiter text_type acc = Raise Spans.unclosed.
Proof.
  intros Hd. revert acc. induction nodes as [|node nodes IH]; intros acc.
  - left. eexists. reflexivity.
  - destruct (TextNode.text_type node) eqn:Ht;
      try (rewrite loop_other by congruence; apply IH).
    rewrite loop_text by assumption.
    destruct (Nat.odd _); [right; reflexivity|apply IH].
Qed.

(** The pass leaves alone a non-empty Text span without the delimiter. *)
Lemma pass_absent (s delimiter : str) (text_type : TextType.t) :
  delimiter <> [] -> s <> [] ->
  Py.contains s delimiter = false ->
  split_nodes_delimiter [TextNode.mk s TextType.TEXT None] delimiter text_type
  = Ok [TextNode.mk s TextType.TEXT None].
Proof.
  intros Hd Hs Hc. unfold split_nodes_delimiter.
  rewrite loop_text by (assumption || reflexivity). cbn [TextNode.text].
  rewrite (PyFacts.count_unfold s Hd).
  unfold Spans.delimiter_spans. rewrite (PyFacts.split_absent _ _ Hc).
  unfold Py.contains in Hc.
  destruct (Py.split_once s delimiter); [discriminate|].
  cbn. destruct (PyFacts.eqb_spec s ""); [congruence|]. reflexivity.
Qed.

End DelimiterFacts.

(** ** Quote assembler *)

Module QuoteFacts.

Lemma lstrip_chars_gt (line : str) :
  exists k,
    line = repeat ">"%char k ++ Py.lstrip_chars line ">" /\
    forall r, Py.lstrip_chars line ">" <> ">"%char :: r.
Proof.
  induction line as [|c line (k & E & Hne)]; simpl.
  - exists 0. split; [reflexivity|discriminate].
  - destruct (Ascii.eqb_spec c ">"%char) as [->|Hc]; simpl.
    + exists (S k). simpl. split; [congruence|exact Hne].
    + exists 0. split; [reflexivity|]. intros r H. congruence.
Qed.

Lemma stripped_line (line : str) :
  (exists rest, line = ">" ++ rest) ->
  Quote.stripped line (Py.lstrip (Py.lstrip_chars line ">")).
Proof.
  intros [rest Hline].
  destruct (lstrip_chars_gt line) as (k & E & Hne).
  destruct (PyFacts.lstrip_suffix (Py.lstrip_chars line ">")) as (ws & Ews & Hws).
  exists k, ws. repeat split.
  - destruct k as [|k]; [|lia]. simpl in E.
    exfalso. apply (Hne rest). rewrite <- E. exact Hline.
  - rewrite <- Ews. exact E.
  - exact Hws.
  - rewrite <- Ews. exact Hne.
  - intros c r. apply PyFacts.lstrip_head.
Qed.

Lemma quote_lines_loop_eq (lines new_lines : list str) :
  Rules.quote lines ->
  quote_lines_loop lines new_lines =
  Ok (new_lines
        ++ map (fun line => Py.lstrip (Py.lstrip_chars line ">")) lines).
Proof.
  intros H. revert new_lines.
  induction H as [|line lines Hl _ IH]; intros acc;
    cbn [quote_lines_loop map].
  - rewrite app_nil_r. reflexivity.
  - apply PyFacts.startswith_iff in Hl. rewrite Hl. cbn [negb].
    rewrite IH, <- app_assoc. reflexivity.
Qed.

Lemma classified_quote (block : str) :
  block_to_block_type block = BlockType.QUOTE ->
  Rules.quote (Py.split block [nl]).
Proof.
  intros H.
  destruct (ClassifierFacts.classify_cases block)
    as [H'|[H'|[H'|[H'|[H'|H']]]]];
    repeat match goal with H : _ /\ _ |- _ => destruct H end;
    try congruence; assumption.
Qed.

End QuoteFacts.

(** ** Inline tokenizer: the image and link passes *)

Module InlineFacts.

(** Right-nests concatenations and pushes literals through them. *)
Ltac norm_app :=
  repeat first [rewrite <- app_assoc | progress (cbn [app])].

Lemma findall_images_unfold (c : ascii) (s : str) :
  findall_images (c :: s) =
  match match_image_at (c :: s) with
  | Some (alt, url, rest) => (alt, url) :: findall_images rest
  | None => findall_images s
  end.
Proof. funelim (findall_images (c :: s)); rewrite e; reflexivity. Qed.

Lemma findall_links_unfold (bang : bool) (c : ascii) (s : str) :
  findall_links bang (c :: s) =
  if bang then findall_links (Ascii.eqb c "!"%char) s
  else
    match match_link_at (c :: s) with
    | Some (label, url, rest) => (label, url) :: findall_links false rest
    | None => findall_links (Ascii.eqb c "!"%char) s
    end.
Proof.
  funelim (findall_links bang (c :: s)); try rewrite e; reflexivity.
Qed.

(** The first pair extracted is the literal of a marker in the text, and
    the other pairs are extracted from what follows it. *)
Lemma findall_images_first (s alt url : str) (others : list (str * str)) :
  findall_images s = (alt, url) :: others ->
  exists pre post,
    s = pre ++ ("![" ++ alt ++ "](" ++ url ++ ")") ++ post /\
    others = findall_images post.
Proof.
  induction s as [|c s IH].
  - simp findall_images. discriminate.
  - rewrite findall_images_unfold.
    destruct (match_image_at (c :: s)) as [[[a u] rest]|] eqn:E.
    + intros H. inversion H; subst.
      apply match_image_at_sound in E. exists [], rest.
      split; [|reflexivity]. rewrite E. norm_app. reflexivity.
    + intros H. destruct (IH H) as (pre & post & -> & Ho).
      exists (c :: pre), post. auto.
Qed.

Lemma findall_links_first (bang : bool) (s label url : str)
  (others : list (str * str)) :
  findall_links bang s = (label, url) :: others ->
  exists pre post,
    s = pre ++ ("[" ++ label ++ "](" ++ url ++ ")") ++ post /\
    others = findall_links false post.
Proof.
  revert bang. induction s as [|c s IH]; intros bang.
  - simp findall_links. discriminate.
  - rewrite findall_links_unfold.
    assert (forall b, findall_links b s = (label, url) :: others ->
            exists pre post,
              c :: s = pre ++ ("[" ++ label ++ "](" ++ url ++ ")") ++ post /\
              others = findall_links false post) as Hskip.
    { intros b H. destruct (IH _ H) as (pre & post & -> & Ho).
      exists (c :: pre), post. auto. }
    destruct bang; [apply Hskip|].
    destruct (match_link_at (c :: s)) as [[[a u] rest]|] eqn:E;
      [|apply Hskip].
    intros H. inversion H; subst.
    apply match_link_at_sound in E. exists [], rest.
    split; [|reflexivity]. rewrite E. norm_app. reflexivity.
Qed.

(** Splitting at the first occurrence of a literal that occurs. *)
Lemma split1_found (x pre lit post : str) :
  exists before after y,
    Py.split1 (x ++ pre ++ lit ++ post) lit = [before; after] /\
    after = y ++ post.
Proof.
  unfold Py.split1. rewrite app_assoc.
  destruct (PyFacts.split_once_complete (x ++ pre) lit post)
    as (before & after & y & -> & ->).
  eauto.
Qed.

(** The image loop never fails: the text that remains always ends with
    the text from which the remaining pairs were extracted. *)
Lemma image_inner_ok (images : list (str * str)) :
  forall (x remainder : str) (new_nodes : list TextNode.t),
    images = findall_images remainder ->
    exists st,
      split_nodes_image_inner images (x ++ remainder) new_nodes = Ok st.
Proof.
  induction images as [|[alt url] images IH]; intros x remainder acc Himg.
  - eexists. reflexivity.
  - symmetry in Himg.
    apply findall_images_first in Himg as (pre & post & -> & Hrest).
    cbn [split_nodes_image_inner fst snd].
    destruct (split1_found x pre ("![" ++ alt ++ "](" ++ url ++ ")") post)
      as (before & after & y & E & ->).
    rewrite E. cbn [length Nat.eqb negb nth].
    apply IH. exact Hrest.
Qed.

Lemma link_inner_ok (links : list (str * str)) :
  forall (bang : bool) (x remainder : str) (new_nodes : list TextNode.t),
    links = findall_links bang remainder ->
    exists st,
      split_nodes_link_inner links (x ++ remainder) new_nodes = Ok st.
Proof.
  induction links as [|[label url] links IH];
    intros bang x remainder acc Hlnk.
  - eexists. reflexivity.
  - symmetry in Hlnk.
    apply findall_links_first in Hlnk as (pre & post & -> & Hrest).
    cbn [split_nodes_link_inner fst snd].
    destruct (split1_found x pre ("[" ++ label ++ "](" ++ url ++ ")") post)
      as (before & after & y & E & ->).
    rewrite E. cbn [length Nat.eqb negb nth].
    apply (IH false). exact Hrest.
Qed.

Lemma image_loop_ok (old_nodes new_nodes : list TextNode.t) :
  exists out, split_nodes_image_loop old_nodes new_nodes = Ok out.
Proof.
  revert new_nodes.
  induction old_nodes as [|node nodes IH]; intros acc;
    cbn [split_nodes_image_loop].
  - eexists. reflexivity.
  - destruct (negb (TextType.eqb (TextNode.text_type node) TextType.TEXT));
      [apply IH|].
    destruct (length (extract_markdown_images (TextNode.text node)) =? 0);
      [apply IH|].
    destruct (image_inner_ok [] (TextNode.text node) acc eq_refl)
      as [[remaining nodes'] E].
    cbn [app] in E. unfold extract_markdown_images. rewrite E. cbn [bind].
    destruct (negb (Py.eqb remaining "")); apply IH.
Qed.

Lemma link_loop_ok (old_nodes new_nodes : list TextNode.t) :
  exists out, split_nodes_link_loop old_nodes new_nodes = Ok out.
Proof.
  revert new_nodes.
  induction old_nodes as [|node nodes IH]; intros acc;
    cbn [split_nodes_link_loop].
  - eexists. reflexivity.
  - destruct (negb (TextType.eqb (TextNode.text_type node) TextType.TEXT));
      [apply IH|].
    destruct (length (extract_markdown_links (TextNode.text node)) =? 0);
      [apply IH|].
    destruct (link_inner_ok false [] (TextNode.text node) acc eq_refl)
      as [[remaining nodes'] E].
    cbn [app] in E. unfold extract_markdown_links. rewrite E. cbn [bind].
    destruct (negb (Py.eqb remaining "")); apply IH.
Qed.

(** *** Matching a marker literal *)

Lemma span_exact (p : ascii -> bool) (a b : str) :
  forallb p a = true ->
  match b with [] => True | c :: _ => p c = false end ->
  span p (a ++ b) = (a, b).
Proof.
  intros Ha Hb. induction a as [|c a IH]; cbn [app].
  - destruct b as [|c b]; [reflexivity|]. simpl. rewrite Hb. reflexivity.
  - simpl in Ha. apply andb_true_iff in Ha as [Hc Ha].
    simpl. rewrite Hc, (IH Ha). reflexivity.
Qed.

Lemma match_link_at_literal (label url rest : str) :
  forallb not_bracket label = true ->
  forallb not_paren url = true ->
  match_link_at ("[" ++ label ++ "](" ++ url ++ ")" ++ rest) =
  Some (label, url, rest).
Proof.
  intros Hl Hu. cbn [app]. unfold match_link_at.
  change ("]"%char :: "("%char :: url ++ ")"%char :: rest)
    with ("](" ++ url ++ ")" ++ rest).
  rewrite (span_exact not_bracket label _ Hl) by reflexivity.
  cbn [app].
  change (")"%char :: rest) with (")" ++ rest).
  rewrite (span_exact not_paren url _ Hu) by reflexivity.
  reflexivity.
Qed.

End InlineFacts.

(** C5: classification is total and follows the precedence Heading, Code,
    Quote, UnorderedList, OrderedList, Paragraph: each type is returned as
    soon as its rule holds and no earlier one does, a block whose every
    line starts with [>] is a Quote whatever else holds of it, and
    Paragraph is returned when no rule holds. *)
Theorem block_to_block_type_precedence (block : str) :
  let lines := Py.split block [nl] in
  (Rules.heading block -> block_to_block_type block = BlockType.HEADING) /\
  (~ Rules.heading block -> Rules.code block ->
   block_to_block_type block = BlockType.CODE) /\
  (Rules.quote lines -> block_to_block_type block = BlockType.QUOTE) /\
  (~ Rules.heading block -> ~ Rules.code block -> ~ Rules.quote lines ->
   Rules.unordered_list lines ->
   block_to_block_type block = BlockType.UNORDERED_LIST) /\
  (~ Rules.heading block -> ~ Rules.code block -> ~ Rules.quote lines ->
   ~ Rules.unordered_list lines -> Rules.ordered_list lines ->
   block_to_block_type block = BlockType.ORDERED_LIST) /\
  (~ Rules.heading block -> ~ Rules.code block -> ~ Rules.quote lines ->
   ~ Rules.unordered_list lines -> ~ Rules.ordered_list lines ->
   block_to_block_type block = BlockType.PARAGRAPH).
Proof.
  intros lines.
  pose proof (@ClassifierFacts.quote_not_heading block) as Qh.
  pose proof (@ClassifierFacts.quote_not_code block) as Qc.
  fold lines in Qh, Qc.
  destruct (ClassifierFacts.classify_cases block)
    as [H|[H|[H|[H|[H|H]]]]]; fold lines in H; tauto.
Qed.

Lemma block_to_block_type_precedence_witness :
  block_to_block_type ("> # title" ++ [nl] ++ ">- item") = BlockType.QUOTE.
Proof.
  apply (block_to_block_type_precedence ("> # title" ++ [nl] ++ ">- item")).
  change (Rules.quote ["> # title"; ">- item"]).
  constructor; [exists " # title"; reflexivity|].
  constructor; [exists "- item"; reflexivity|].
  constructor.
Defined.

(** C6: a block is an OrderedList exactly when the rules for Heading, Code,
    Quote and UnorderedList fail and every line, at position [i] counted
    from zero, starts with the numeral of [i + 1], a full stop and a
    space; the one-line block ["2. item"] is a Paragraph. *)
Theorem ordered_list_iff_numbered_from_one (block : str) :
  let lines := Py.split block [nl] in
  (block_to_block_type block = BlockType.ORDERED_LIST <->
   ~ Rules.heading block /\ ~ Rules.code block /\ ~ Rules.quote lines /\
   ~ Rules.unordered_list lines /\ Rules.ordered_list lines) /\
  block_to_block_type "2. item" = BlockType.PARAGRAPH.
Proof.
  intros lines. split; [|reflexivity].
  destruct (ClassifierFacts.classify_cases block)
    as [H|[H|[H|[H|[H|H]]]]]; fold lines in H;
    split; intros H'; try tauto;
    repeat match goal with H : _ /\ _ |- _ => destruct H end;
    congruence.
Qed.

(** C10: the empty document converts to a root [div] without children. *)
Theorem markdown_to_html_node_empty
  (text_node_to_html_node : TextNode.t -> result HTMLNode) :
  markdown_to_html_node text_node_to_html_node "" = Ok (ParentNode "div" []).
Proof. reflexivity. Qed.

(** C2: on spans whose Text strings hold the delimiter an even number of
    times, the delimiter pass succeeds; every Text span is replaced, in
    place, by the non-empty segments of its string split at the delimiter,
    those at odd positions typed with the target type and those at even
    positions as Text; other spans stay as they are; no emitted span is
    empty. *)
Theorem split_nodes_delimiter_balanced (old_nodes : list TextNode.t)
  (delimiter : str) (text_type : TextType.t) :
  delimiter <> [] ->
  Forall (fun node =>
            TextNode.text_type node = TextType.TEXT ->
            Nat.even (Py.count (TextNode.text node) delimiter) = true)
         old_nodes ->
  exists new_nodes,
    split_nodes_delimiter old_nodes delimiter text_type = Ok new_nodes /\
    new_nodes = Spans.delimiter_pass old_nodes delimiter text_type /\
    forall node,
      In node new_nodes ->
      TextNode.text node <> [] \/
      (In node old_nodes /\ TextNode.text_type node <> TextType.TEXT).
Proof.
  intros Hd Heven. eexists. split; [|split; [reflexivity|]].
  - unfold split_nodes_delimiter.
    rewrite (DelimiterFacts.loop_balanced _ _ Hd Heven). reflexivity.
  - intros node Hin. unfold Spans.delimiter_pass in Hin.
    apply in_flat_map in Hin as (old & Hold & Hin).
    destruct (TextNode.text_type old) eqn:Ht;
      try (destruct Hin as [<-|[]]; right; split; [exact Hold|congruence]).
    left. eapply DelimiterFacts.delimiter_spans_nonempty, Hin.
Qed.

Lemma split_nodes_delimiter_balanced_witness :
  split_nodes_delimiter
    [TextNode.mk "a **b****c**" TextType.TEXT None;
     TextNode.mk "**" TextType.CODE None] "**" TextType.BOLD
  = Ok [TextNode.mk "a " TextType.TEXT None;
        TextNode.mk "b" TextType.BOLD None;
        TextNode.mk "c" TextType.BOLD None;
        TextNode.mk "**" TextType.CODE None].
Proof.
  assert ("**" <> []) as Hd by discriminate.
  assert (Forall (fun node =>
            TextNode.text_type node = TextType.TEXT ->
            Nat.even (Py.count (TextNode.text node) "**") = true)
          [TextNode.mk "a **b****c**" TextType.TEXT None;
           TextNode.mk "**" TextType.CODE None]) as Heven.
  { constructor; [intros _; reflexivity|].
    constructor; [discriminate|constructor]. }
  destruct (split_nodes_delimiter_balanced TextType.BOLD Hd Heven)
    as (new_nodes & -> & -> & _).
  reflexivity.
Defined.

(** C4 (amended): when some Text span holds the delimiter an odd number of
    times, the delimiter pass raises the error "invalid markdown, formatted
    section not closed", whatever the delimiter; tokenizing ["**bold"]
    raises it. *)
Theorem split_nodes_delimiter_unclosed (old_nodes : list TextNode.t)
  (delimiter : str) (text_type : TextType.t) :
  delimiter <> [] ->
  Exists (fun node =>
            TextNode.text_type node = TextType.TEXT /\
            Nat.odd (Py.count (TextNode.text node) delimiter) = true)
         old_nodes ->
  split_nodes_delimiter old_nodes delimiter text_type =
    Raise (ValueError "invalid markdown, formatted section not closed") /\
  text_to_textnodes "**bold" =
    Raise (ValueError "invalid markdown, formatted section not closed").
Proof.
  intros Hd Hodd. split; [|reflexivity].
  apply DelimiterFacts.loop_unbalanced; assumption.
Qed.

Lemma split_nodes_delimiter_unclosed_witness :
  split_nodes_delimiter
    [TextNode.mk "x" TextType.BOLD None;
     TextNode.mk "an _unclosed mark" TextType.TEXT None] "_" TextType.ITALIC
  = Raise (ValueError "invalid markdown, formatted section not closed").
Proof.
  assert ("_" <> []) as Hd by discriminate.
  assert (Exists (fun node =>
            TextNode.text_type node = TextType.TEXT /\
            Nat.odd (Py.count (TextNode.text node) "_") = true)
          [TextNode.mk "x" TextType.BOLD None;
           TextNode.mk "an _unclosed mark" TextType.TEXT None]) as Hodd.
  { apply Exists_cons_tl, Exists_cons_hd. split; reflexivity. }
  exact (proj1 (split_nodes_delimiter_unclosed TextType.ITALIC Hd Hodd)).
Defined.

(** C4 as stated fails: the error raised on ["**bold"] does not name the
    delimiter. *)
Lemma unclosed_error_names_no_delimiter :
  ~ exists e, text_to_textnodes "**bold" = Raise e /\
              Spans.names_delimiter e "**".
Proof.
  intros (e & He & Hn).
  assert (text_to_textnodes "**bold" = Raise Spans.unclosed) as E
    by reflexivity.
  rewrite E in He. inversion He; subst e.
  vm_compute in Hn. discriminate.
Qed.

(** C3 (amended): tokenizing a non-empty text without inline markers
    returns exactly one Text span, equal to the text. *)
Theorem text_to_textnodes_no_markers (text : str) :
  text <> [] ->
  Spans.no_markers text ->
  text_to_textnodes text = Ok [TextNode.mk text TextType.TEXT None].
Proof.
  intros Hne (Hb & Hi & Hc & Himg & Hlnk). unfold text_to_textnodes.
  rewrite (@DelimiterFacts.pass_absent text "**" TextType.BOLD
             ltac:(discriminate) Hne Hb).
  cbn [bind].
  rewrite (@DelimiterFacts.pass_absent text "_" TextType.ITALIC
             ltac:(discriminate) Hne Hi).
  cbn [bind].
  rewrite (@DelimiterFacts.pass_absent text "`" TextType.CODE
             ltac:(discriminate) Hne Hc).
  cbn [bind].
  unfold split_nodes_image, split_nodes_link.
  cbn [split_nodes_image_loop TextNode.text_type TextNode.text TextType.eqb negb].
  rewrite Himg. cbn [length Nat.eqb app bind split_nodes_image_loop].
  cbn [split_nodes_link_loop TextNode.text_type TextNode.text TextType.eqb negb].
  rewrite Hlnk. reflexivity.
Qed.

Lemma text_to_textnodes_no_markers_witness :
  text_to_textnodes "plain text, 2 * 3 = (6)!" =
  Ok [TextNode.mk "plain text, 2 * 3 = (6)!" TextType.TEXT None].
Proof.
  apply text_to_textnodes_no_markers.
  - discriminate.
  - repeat split; reflexivity.
Defined.

(** C3 as stated fails on the empty text, which has no inline markers and
    is tokenized to no span at all. *)
Lemma text_to_textnodes_empty_text :
  Spans.no_markers "" /\
  text_to_textnodes "" = Ok [] /\
  text_to_textnodes "" <> Ok [TextNode.mk "" TextType.TEXT None].
Proof.
  split; [repeat split; reflexivity|].
  split; [reflexivity|discriminate].
Qed.

(** C7 (amended): for a block classified as Quote, the assembler strips
    from every line its whole run of leading [>] characters and then the
    whole run of whitespace that follows, rejoins the stripped lines with
    newlines, and builds a [blockquote] node over the tokenized rejoined
    text. *)
Theorem quote_to_html_node_strips_runs
  (text_node_to_html_node : TextNode.t -> result HTMLNode) (block : str) :
  block_to_block_type block = BlockType.QUOTE ->
  exists new_lines,
    Forall2 Quote.stripped (Py.split block [nl]) new_lines /\
    quote_to_html_node text_node_to_html_node block =
    (children <- text_to_children text_node_to_html_node
                   (Py.join [nl] new_lines) ;;
     Ok (ParentNode "blockquote" children)).
Proof.
  intros H. apply QuoteFacts.classified_quote in H.
  exists (map (fun line => Py.lstrip (Py.lstrip_chars line ">"))
              (Py.split block [nl])).
  split.
  - induction H as [|line lines Hl _ IH]; simpl; constructor.
    + apply QuoteFacts.stripped_line, Hl.
    + exact IH.
  - unfold quote_to_html_node.
    rewrite (QuoteFacts.quote_lines_loop_eq [] H). reflexivity.
Qed.

Lemma quote_to_html_node_strips_runs_witness :
  exists new_lines,
    Forall2 Quote.stripped (Py.split (">> a" ++ [nl] ++ ">b") [nl]) new_lines /\
    quote_to_html_node Quote.plain_leaf (">> a" ++ [nl] ++ ">b") =
    (children <- text_to_children Quote.plain_leaf (Py.join [nl] new_lines) ;;
     Ok (ParentNode "blockquote" children)).
Proof.
  apply (quote_to_html_node_strips_runs Quote.plain_leaf
           (">> a" ++ [nl] ++ ">b")).
  reflexivity.
Defined.

(** C7 as stated fails: on the Quote block [">> a"] the assembler leaves
    ["a"], where dropping one [>] and one space would leave ["> a"]. *)
Lemma quote_to_html_node_not_one_marker :
  block_to_block_type ">> a" = BlockType.QUOTE /\
  quote_to_html_node Quote.plain_leaf ">> a" =
    Ok (ParentNode "blockquote" [LeafNode None "a" None]) /\
  Quote.as_stated Quote.plain_leaf ">> a" =
    Ok (ParentNode "blockquote" [LeafNode None "> a" None]) /\
  quote_to_html_node Quote.plain_leaf ">> a" <>
    Quote.as_stated Quote.plain_leaf ">> a".
Proof. repeat split; try reflexivity. discriminate. Qed.

(** C9: the failure branches of the image and link passes are never
    taken.  Each pass succeeds on every list of spans, every extracted
    pair's literal being found by the split of the remaining text into two
    sections; the only error the tokenizer can raise is the unclosed
    section error of the delimiter passes. *)
Theorem image_and_link_errors_unreachable :
  (forall old_nodes, exists new_nodes,
      split_nodes_image old_nodes = Ok new_nodes) /\
  (forall old_nodes, exists new_nodes,
      split_nodes_link old_nodes = Ok new_nodes) /\
  (forall text,
      (exists nodes, text_to_textnodes text = Ok nodes) \/
      text_to_textnodes text =
        Raise (ValueError "invalid markdown, formatted section not closed")).
Proof.
  split; [|split].
  - intros old_nodes. apply InlineFacts.image_loop_ok.
  - intros old_nodes. apply InlineFacts.link_loop_ok.
  - intros text. unfold text_to_textnodes, split_nodes_delimiter.
    destruct (@DelimiterFacts.loop_outcome
                [TextNode.mk text TextType.TEXT None] "**" TextType.BOLD []
                ltac:(discriminate)) as [[n1 ->]| ->]; [|right; reflexivity].
    cbn [bind].
    destruct (@DelimiterFacts.loop_outcome n1 "_" TextType.ITALIC []
                ltac:(discriminate)) as [[n2 ->]| ->]; [|right; reflexivity].
    cbn [bind].
    destruct (@DelimiterFacts.loop_outcome n2 "`" TextType.CODE []
                ltac:(discriminate)) as [[n3 ->]| ->]; [|right; reflexivity].
    cbn [bind]. unfold split_nodes_image, split_nodes_link.
    destruct (InlineFacts.image_loop_ok n3 []) as [n4 ->]. cbn [bind].
    destruct (InlineFacts.link_loop_ok n4 []) as [n5 ->]. cbn [bind].
    left. eexists. reflexivity.
Qed.


(** * Further properties of the code *)

(** ** More on the string primitives *)

Module SplitFacts.

Lemma contains_false_iff (s sep : str) :
  Py.contains s sep = false <-> forall a b, s <> a ++ sep ++ b.
Proof.
  split.
  - intros H a b E.
    assert (Py.contains s sep = true) by (apply PyFacts.contains_iff; eauto).
    congruence.
  - intros H. destruct (Py.contains s sep) eqn:E; [|reflexivity].
    apply PyFacts.contains_iff in E as (a & b & E). destruct (H _ _ E).
Qed.

(** An infix of a text without the separator has none either. *)
Lemma contains_infix (a x b sep : str) :
  Py.contains (a ++ x ++ b) sep = false -> Py.contains x sep = false.
Proof.
  rewrite !contains_false_iff. intros H p q ->.
  apply (H (a ++ p) (q ++ b)). rewrite <- !app_assoc. reflexivity.
Qed.

(** The text before the first occurrence holds no occurrence. *)
Lemma split_once_pre_absent (s sep pre post : str) :
  sep <> [] ->
  Py.split_once s sep = Some (pre, post) -> Py.contains pre sep = false.
Proof.
  intros Hsep. unfold Py.contains. revert pre post.
  induction s as [|c s IH]; intros pre post H; cbn [Py.split_once] in H.
  - destruct (Py.startswith [] sep) eqn:E; [|discriminate].
    destruct sep; [congruence|discriminate].
  - destruct (Py.startswith (c :: s) sep) eqn:E.
    + inversion H; subst. destruct sep; [congruence|reflexivity].
    + destruct (Py.split_once s sep) as [[a b]|] eqn:E'; [|discriminate].
      assert (pre = c :: a /\ post = b) as [-> ->] by (inversion H; auto).
      specialize (IH _ _ eq_refl).
      cbn [Py.split_once].
      destruct (Py.startswith (c :: a) sep) eqn:E2.
      * apply PyFacts.startswith_iff in E2 as [r Hr].
        apply PyFacts.split_once_sound in E'.
        assert (Py.startswith (c :: s) sep = true) as E3.
        { apply PyFacts.startswith_iff. exists (r ++ sep ++ b).
          rewrite E', app_comm_cons, Hr, <- app_assoc. reflexivity. }
        congruence.
      * destruct (Py.split_once a sep); [discriminate|reflexivity].
Qed.

(** No piece of a split holds the separator. *)
Lemma split_pieces_absent (s sep piece : str) :
  sep <> [] -> In piece (Py.split s sep) -> Py.contains piece sep = false.
Proof.
  funelim (Py.split s sep); intros Hsep Hin.
  - congruence.
  - destruct Hin as [<-|Hin].
    + eapply split_once_pre_absent; eassumption.
    + apply H; assumption.
  - destruct Hin as [<-|[]]. unfold Py.contains. rewrite e. reflexivity.
Qed.

(** A stripped text is an infix of the text. *)
Lemma strip_infix (s : str) : exists a b, s = a ++ Py.strip s ++ b.
Proof.
  unfold Py.strip, Py.rstrip.
  destruct (PyFacts.lstrip_suffix s) as (ws & E & _).
  destruct (PyFacts.lstrip_suffix (rev (Py.lstrip s))) as (ws' & E' & _).
  exists ws, (rev ws'). rewrite E at 1. f_equal.
  rewrite <- rev_app_distr, <- E', rev_involutive. reflexivity.
Qed.

(** Splitting right after a prefix free of the separator's first
    character. *)
Lemma split_once_first (d : str) (c0 : ascii) (sep' t : str) :
  Forall (fun c => c <> c0) d ->
  Py.split_once (d ++ (c0 :: sep') ++ t) (c0 :: sep') = Some (d, t).
Proof.
  intros H. induction H as [|c d Hc _ IH].
  - cbn [app Py.split_once].
    change (c0 :: sep' ++ t) with ((c0 :: sep') ++ t).
    rewrite PyFacts.startswith_app.
    rewrite skipn_app, skipn_all, Nat.sub_diag. reflexivity.
  - cbn [app Py.split_once]. cbn [Py.startswith].
    destruct (Ascii.eqb_spec c c0) as [->|_]; [congruence|].
    cbn [andb]. cbn [app] in IH. rewrite IH. reflexivity.
Qed.

End SplitFacts.

(** X1: every block the segmenter returns is free of leading and trailing
    whitespace and holds no blank-line separator. *)
Theorem markdown_to_blocks_blocks_are_trimmed (markdown block : str) :
  In block (markdown_to_blocks markdown) ->
  (forall c r, block = c :: r -> Py.isspace c = false) /\
  (forall c r, block = r ++ [c] -> Py.isspace c = false) /\
  Py.contains block [nl; nl] = false.
Proof.
  intros Hin.
  destruct (SegmenterFacts.markdown_to_blocks_stripped _ _ Hin) as [H1 H2].
  repeat split; [exact H1|exact H2|].
  rewrite SegmenterFacts.markdown_to_blocks_eq, in_map_iff in Hin.
  destruct Hin as (fragment & <- & Hf). apply filter_In in Hf as [Hf _].
  destruct (SplitFacts.strip_infix fragment) as (a & b & E).
  apply (SplitFacts.contains_infix a _ b). rewrite <- E.
  apply (SplitFacts.split_pieces_absent markdown); [discriminate|exact Hf].
Qed.

Lemma markdown_to_blocks_blocks_are_trimmed_witness :
  Py.contains "second block" [nl; nl] = false.
Proof.
  apply (markdown_to_blocks_blocks_are_trimmed
           (" first" ++ [nl; nl; nl] ++ "second block " ++ [nl; nl])
           "second block").
  right. left. reflexivity.
Defined.


(** ** More on the block assembler *)

Module AssemblerFacts.

(** What a classification tells of the block. *)
Lemma classified (block : str) :
  let lines := Py.split block [nl] in
  match block_to_block_type block with
  | BlockType.HEADING => Rules.heading block
  | BlockType.CODE => Rules.code block
  | BlockType.QUOTE => Rules.quote lines
  | BlockType.UNORDERED_LIST => Rules.unordered_list lines
  | BlockType.ORDERED_LIST => Rules.ordered_list lines
  | BlockType.PARAGRAPH =>
      ~ Rules.heading block /\ ~ Rules.code block /\ ~ Rules.quote lines /\
      ~ Rules.unordered_list lines /\ ~ Rules.ordered_list lines
  end.
Proof.
  intros lines.
  destruct (ClassifierFacts.classify_cases block)
    as [H|[H|[H|[H|[H|H]]]]]; fold lines in H;
    repeat match goal with H : _ /\ _ |- _ => destruct H end;
    match goal with H : block_to_block_type _ = _ |- _ => rewrite H end;
    auto.
Qed.

Lemma heading_level_hashes (n : nat) (rest : str) (level : nat) :
  heading_level (repeat "#"%char n ++ " " ++ rest) level = level + n.
Proof.
  revert level. induction n as [|n IH]; intros level.
  - simpl. lia.
  - cbn [repeat app heading_level]. cbn [Ascii.eqb Bool.eqb].
    rewrite IH. lia.
Qed.

Lemma skipn_hashes (n : nat) (rest : str) :
  skipn (n + 1) (repeat "#"%char n ++ " " ++ rest) = rest.
Proof.
  induction n as [|n IH]; [reflexivity|]. exact IH.
Qed.

Lemma heading_of_rule
  (f : TextNode.t -> result HTMLNode) (n : nat) (rest : str) :
  1 <= n <= 6 ->
  heading_to_html_node f (repeat "#"%char n ++ " " ++ rest) =
  (children <- text_to_children f rest ;;
   Ok (ParentNode ("h" ++ Py.str_of_nat n) children)).
Proof.
  intros Hn. unfold heading_to_html_node.
  rewrite heading_level_hashes. cbn [Nat.add].
  assert ((n <? 1) || (6 <? n) = false) as ->.
  { apply orb_false_iff. rewrite !Nat.ltb_ge. lia. }
  rewrite skipn_hashes. reflexivity.
Qed.

(** The interior of a fenced block. *)
Lemma code_interior (block : str) :
  Rules.code block ->
  let text := firstn (length block - 3 - 3) (skipn 3 block) in
  (6 <= length block -> block = "```" ++ text ++ "```") /\
  (length block < 6 -> text = []).
Proof.
  intros [[r Hr] [front Hf]] text. split.
  - intros Hlen. subst text.
    assert (skipn 3 block = r) as E3 by (rewrite Hr; reflexivity).
    rewrite E3. rewrite Hr at 1. cbn [app]. do 3 f_equal.
    rewrite <- (firstn_skipn (length block - 3 - 3) r) at 1. f_equal.
    rewrite <- E3, skipn_skipn.
    replace (length block - 3 - 3 + 3) with (length front).
    + rewrite Hf, skipn_app, skipn_all, Nat.sub_diag. reflexivity.
    + assert (length block = length front + 3)
        by (rewrite Hf at 1; rewrite length_app; reflexivity).
      lia.
  - intros Hlen. subst text.
    replace (length block - 3 - 3) with 0 by lia. reflexivity.
Qed.

Lemma code_of_rule (block : str) :
  Rules.code block ->
  code_to_html_node block =
  Ok (ParentNode "pre"
        [LeafNode (Some "code")
                  (firstn (length block - 3 - 3) (skipn 3 block)) None]).
Proof.
  intros H. apply ClassifierFacts.code_iff in H.
  unfold code_to_html_node. rewrite H. reflexivity.
Qed.

(** The first line of a block is a prefix of it, so a rule on the lines
    fixes how the block starts. *)
Lemma lines_head (p : str) (block : str) :
  Forall (fun line => exists rest, line = p ++ rest) (Py.split block [nl]) ->
  exists rest, block = p ++ rest.
Proof.
  intros H.
  destruct (PyFacts.split_head block [nl]) as (first & others & rest & E & ->).
  rewrite E in H. inversion H as [|? ? [r ->] _]; subst.
  exists (r ++ rest). rewrite <- app_assoc. reflexivity.
Qed.

Lemma ordered_head (block : str) :
  Rules.ordered_list (Py.split block [nl]) -> exists rest, block = "1. " ++ rest.
Proof.
  intros H.
  destruct (PyFacts.split_head block [nl]) as (first & others & rest & E & ->).
  rewrite E in H. destruct (H 0 first eq_refl) as [r Hr].
  exists (r ++ rest). rewrite Hr. reflexivity.
Qed.

End AssemblerFacts.

(** X2: for a block classified as Heading, the heading assembler never
    raises its invalid-level error: the block is one to six [#], a space
    and a text, and the node is [h1] to [h6], by the count of [#], over
    the children of that text. *)
Theorem heading_to_html_node_of_heading
  (text_node_to_html_node : TextNode.t -> result HTMLNode) (block : str) :
  block_to_block_type block = BlockType.HEADING ->
  exists n rest,
    1 <= n <= 6 /\
    block = repeat "#"%char n ++ " " ++ rest /\
    heading_to_html_node text_node_to_html_node block =
    (children <- text_to_children text_node_to_html_node rest ;;
     Ok (ParentNode ("h" ++ Py.str_of_nat n) children)).
Proof.
  intros H. pose proof (AssemblerFacts.classified block) as Hc.
  rewrite H in Hc. destruct Hc as (n & rest & Hn & ->).
  exists n, rest. repeat split; try lia.
  apply AssemblerFacts.heading_of_rule. exact Hn.
Qed.

Lemma heading_to_html_node_of_heading_witness :
  exists n rest,
    1 <= n <= 6 /\
    "### A _title_" = repeat "#"%char n ++ " " ++ rest /\
    heading_to_html_node Quote.plain_leaf "### A _title_" =
    (children <- text_to_children Quote.plain_leaf rest ;;
     Ok (ParentNode ("h" ++ Py.str_of_nat n) children)).
Proof.
  apply (heading_to_html_node_of_heading Quote.plain_leaf "### A _title_").
  reflexivity.
Defined.

(** X3: for a block classified as Code, the code assembler never raises:
    it returns a [pre] node over one [code] leaf.  When the block has six
    characters or more, the leaf holds the text between the two fences,
    untokenized; a shorter block, whose fences overlap, gives an empty
    leaf. *)
Theorem code_to_html_node_of_code (block : str) :
  block_to_block_type block = BlockType.CODE ->
  exists text,
    code_to_html_node block =
      Ok (ParentNode "pre" [LeafNode (Some "code") text None]) /\
    (6 <= length block -> block = "```" ++ text ++ "```") /\
    (length block < 6 -> text = []).
Proof.
  intros H. pose proof (AssemblerFacts.classified block) as Hc.
  rewrite H in Hc.
  exists (firstn (length block - 3 - 3) (skipn 3 block)). split.
  - apply AssemblerFacts.code_of_rule, Hc.
  - apply AssemblerFacts.code_interior, Hc.
Qed.

Lemma code_to_html_node_of_code_witness :
  exists text,
    code_to_html_node "```a **b**```" =
      Ok (ParentNode "pre" [LeafNode (Some "code") text None]) /\
    (6 <= length "```a **b**```" -> "```a **b**```" = "```" ++ text ++ "```") /\
    (length "```a **b**```" < 6 -> text = []).
Proof.
  apply (code_to_html_node_of_code "```a **b**```"). reflexivity.
Defined.

(** X4: a block that starts with [#] is a Heading or a Paragraph, and it
    is a Paragraph when seven or more [#] open it. *)
Theorem hash_block_is_heading_or_paragraph (block rest : str) :
  block = "#" ++ rest ->
  (block_to_block_type block = BlockType.HEADING \/
   block_to_block_type block = BlockType.PARAGRAPH) /\
  (forall tail, block = repeat "#"%char 7 ++ tail ->
                block_to_block_type block = BlockType.PARAGRAPH).
Proof.
  intros Hb. pose proof (AssemblerFacts.classified block) as Hc.
  assert (block_to_block_type block = BlockType.HEADING \/
          block_to_block_type block = BlockType.PARAGRAPH) as Hor.
  { destruct (block_to_block_type block); auto; exfalso.
    - destruct Hc as [[r Hr] _]. cbn [app] in *. congruence.
    - apply (AssemblerFacts.lines_head ">") in Hc as [r Hr].
      cbn [app] in *. congruence.
    - apply (AssemblerFacts.lines_head "- ") in Hc as [r Hr].
      cbn [app] in *. congruence.
    - apply AssemblerFacts.ordered_head in Hc as [r Hr].
      cbn [app] in *. congruence. }
  split; [exact Hor|].
  intros tail Ht. destruct Hor as [Hh|Hp]; [|exact Hp].
  rewrite Hh in Hc. destruct Hc as (n & r & Hn & E). exfalso.
  rewrite Ht in E.
  do 7 (destruct n as [|n]; [discriminate|]; cbn [repeat app] in E;
        apply (f_equal (@tl ascii)) in E; cbn [tl] in E).
  lia.
Qed.

Lemma hash_block_is_heading_or_paragraph_witness :
  block_to_block_type "####### seven" = BlockType.PARAGRAPH.
Proof.
  apply (proj2 (hash_block_is_heading_or_paragraph (rest := "###### seven")
                  eq_refl) " seven").
  reflexivity.
Defined.


(** ** Lists, paragraphs and the whole document *)

Module DocumentFacts.

Lemma bind_ok {A B : Type} (r : result A) (k : A -> result B) (b : B) :
  bind r k = Ok b -> exists a, r = Ok a /\ k a = Ok b.
Proof. destruct r; simpl; [eauto|discriminate]. Qed.

Lemma bind_raise {A B : Type} (r : result A) (k : A -> result B) (e : exn) :
  bind r k = Raise e -> r = Raise e \/ exists a, r = Ok a /\ k a = Raise e.
Proof.
  destruct r; simpl; [eauto|]. intros H. left. inversion H. reflexivity.
Qed.

(** *** List items *)

Lemma unordered_list_loop_eq (f : TextNode.t -> result HTMLNode)
  (items : list str) (html_items : list HTMLNode) :
  unordered_list_loop f items html_items =
  (rest <- Items.li_nodes f (map (skipn 2) items) ;;
   Ok (html_items ++ rest)).
Proof.
  revert html_items. induction items as [|item items IH]; intros acc;
    cbn [unordered_list_loop map Items.li_nodes].
  - cbn [bind]. rewrite app_nil_r. reflexivity.
  - destruct (text_to_children f (skipn 2 item)) as [children|e];
      cbn [bind]; [|reflexivity].
    rewrite IH. destruct (Items.li_nodes f (map (skipn 2) items));
      cbn [bind]; [|reflexivity].
    rewrite <- app_assoc. reflexivity.
Qed.

Lemma uint_no_dot (d : Decimal.uint) :
  Forall (fun c => c <> "."%char)
    (String.list_ascii_of_string (DecimalString.NilEmpty.string_of_uint d)).
Proof.
  induction d; simpl; constructor; (discriminate || assumption).
Qed.

Lemma str_of_nat_no_dot (n : nat) :
  Forall (fun c => c <> "."%char) (Py.str_of_nat n).
Proof. apply uint_no_dot. Qed.

(** The split of a numbered line at its first full stop and space gives
    the number and the rest. *)
Lemma split1_numbered (n : nat) (text : str) :
  Py.split1 (Py.str_of_nat n ++ ". " ++ text) ". " = [Py.str_of_nat n; text].
Proof.
  unfold Py.split1.
  rewrite (SplitFacts.split_once_first " " text (str_of_nat_no_dot n)).
  reflexivity.
Qed.

Lemma ordered_list_items_loop_eq (f : TextNode.t -> result HTMLNode)
  (items texts : list str) (i : nat) (html_items : list HTMLNode) :
  Items.numbered i items texts ->
  ordered_list_items_loop f items html_items =
  (rest <- Items.li_nodes f texts ;; Ok (html_items ++ rest)).
Proof.
  revert texts i html_items.
  induction items as [|item items IH]; intros [|text texts] i acc H;
    cbn [Items.numbered] in H; try contradiction.
  - cbn. rewrite app_nil_r. reflexivity.
  - destruct H as [-> H].
    cbn [ordered_list_items_loop Items.li_nodes].
    rewrite split1_numbered. cbn [bind].
    destruct (text_to_children f text) as [children|e];
      cbn [bind]; [|reflexivity].
    rewrite (IH _ _ _ H). destruct (Items.li_nodes f texts);
      cbn [bind]; [|reflexivity].
    rewrite <- app_assoc. reflexivity.
Qed.

Lemma numbered_exists (lines : list str) (i : nat) :
  (forall j line,
      nth_error lines j = Some line ->
      exists rest, line = Py.str_of_nat (i + j + 1) ++ ". " ++ rest) ->
  exists texts, Items.numbered i lines texts.
Proof.
  revert i. induction lines as [|line lines IH]; intros i H.
  - exists []. exact I.
  - destruct (H 0 line eq_refl) as [text Ht].
    rewrite Nat.add_0_r in Ht.
    destruct (IH (S i)) as [texts Hn].
    { intros j l Hj. destruct (H (S j) l Hj) as [r Hr]. exists r.
      rewrite Hr. do 2 f_equal. lia. }
    exists (text :: texts). split; assumption.
Qed.

(** *** Paragraphs *)

Lemma unwrap_absent (s : str) :
  Py.contains s [nl] = false -> map Items.unwrap s = s.
Proof.
  intros H. rewrite SplitFacts.contains_false_iff in H.
  rewrite <- (map_id s) at 2. apply map_ext_in. intros c Hc.
  unfold Items.unwrap. destruct (Ascii.eqb_spec c nl) as [->|]; [|reflexivity].
  apply in_split in Hc as (a & b & E). destruct (H a b E).
Qed.

Lemma join_cons (sep x : str) (l : list str) :
  l <> [] -> Py.join sep (x :: l) = x ++ sep ++ Py.join sep l.
Proof. destruct l; [congruence|reflexivity]. Qed.

Lemma join_lines_aux (s sep : str) :
  sep = [nl] -> Py.join " " (Py.split s sep) = map Items.unwrap s.
Proof.
  funelim (Py.split s sep); intros Hsep.
  - discriminate.
  - inversion Hsep; subst.
    pose proof (PyFacts.split_once_sound _ _ e) as Es.
    pose proof (@SplitFacts.split_once_pre_absent s [nl] pre post
                  ltac:(discriminate) e) as Ep.
    rewrite join_cons by apply PyFacts.split_not_nil.
    rewrite (H eq_refl), Es, map_app.
    rewrite (@unwrap_absent pre Ep). reflexivity.
  - inversion Hsep; subst. cbn [Py.join]. symmetry. apply unwrap_absent.
    unfold Py.contains. rewrite e. reflexivity.
Qed.

(** *** Errors *)

Lemma tokenizer_error (text : str) (e : exn) :
  text_to_textnodes text = Raise e -> e = Spans.unclosed.
Proof.
  unfold text_to_textnodes, split_nodes_delimiter.
  destruct (@DelimiterFacts.loop_outcome
              [TextNode.mk text TextType.TEXT None] "**" TextType.BOLD []
              ltac:(discriminate)) as [[n1 ->]| ->];
    [|cbn [bind]; congruence].
  cbn [bind].
  destruct (@DelimiterFacts.loop_outcome n1 "_" TextType.ITALIC []
              ltac:(discriminate)) as [[n2 ->]| ->];
    [|cbn [bind]; congruence].
  cbn [bind].
  destruct (@DelimiterFacts.loop_outcome n2 "`" TextType.CODE []
              ltac:(discriminate)) as [[n3 ->]| ->];
    [|cbn [bind]; congruence].
  cbn [bind]. unfold split_nodes_image, split_nodes_link.
  destruct (InlineFacts.image_loop_ok n3 []) as [n4 ->]. cbn [bind].
  destruct (InlineFacts.link_loop_ok n4 []) as [n5 ->]. cbn [bind].
  discriminate.
Qed.

Lemma children_loop_error (f : TextNode.t -> result HTMLNode)
  (text_nodes : list TextNode.t) (children : list HTMLNode) (e : exn) :
  text_to_children_loop f text_nodes children = Raise e ->
  exists node, f node = Raise e.
Proof.
  revert children. induction text_nodes as [|node nodes IH]; intros acc;
    cbn [text_to_children_loop]; [discriminate|].
  destruct (f node) as [h|e'] eqn:E; cbn [bind].
  - apply IH.
  - intros H. exists node. congruence.
Qed.

Lemma children_error (f : TextNode.t -> result HTMLNode) (text : str)
  (e : exn) :
  text_to_children f text = Raise e -> Items.passed_on f e.
Proof.
  unfold text_to_children. intros H.
  apply bind_raise in H as [H|(nodes & _ & H)].
  - left. apply (tokenizer_error _ H).
  - right. apply (children_loop_error _ _ _ H).
Qed.

Lemma li_nodes_error (f : TextNode.t -> result HTMLNode) (texts : list str)
  (e : exn) :
  Items.li_nodes f texts = Raise e -> Items.passed_on f e.
Proof.
  induction texts as [|text texts IH]; cbn [Items.li_nodes]; [discriminate|].
  intros H. apply bind_raise in H as [H|(children & _ & H)].
  - apply (children_error _ _ H).
  - apply bind_raise in H as [H|(items & _ & H)]; [auto|discriminate].
Qed.

Lemma wrapped_error (f : TextNode.t -> result HTMLNode) (text tag : str)
  (e : exn) :
  (children <- text_to_children f text ;; Ok (ParentNode tag children))
    = Raise e ->
  Items.passed_on f e.
Proof.
  intros H. apply bind_raise in H as [H|(c & _ & H)]; [|discriminate].
  apply (children_error _ _ H).
Qed.

(** The node of a block, by its type, as the top-level loop builds it. *)
Lemma block_error (f : TextNode.t -> result HTMLNode) (block : str)
  (e : exn) :
  match block_to_block_type block with
  | BlockType.PARAGRAPH => paragraph_to_html_node f block
  | BlockType.HEADING => heading_to_html_node f block
  | BlockType.CODE => code_to_html_node block
  | BlockType.QUOTE => quote_to_html_node f block
  | BlockType.UNORDERED_LIST => unordered_list_to_html_node f block
  | BlockType.ORDERED_LIST => ordered_list_to_html_node f block
  end = Raise e ->
  Items.passed_on f e.
Proof.
  pose proof (AssemblerFacts.classified block) as Hc. cbv zeta in Hc.
  destruct (block_to_block_type block).
  - apply wrapped_error.
  - destruct Hc as (n & rest & Hn & ->).
    rewrite (AssemblerFacts.heading_of_rule f rest Hn). apply wrapped_error.
  - rewrite (AssemblerFacts.code_of_rule Hc). discriminate.
  - unfold quote_to_html_node.
    rewrite (QuoteFacts.quote_lines_loop_eq [] Hc). cbn [bind app].
    apply wrapped_error.
  - unfold unordered_list_to_html_node. rewrite unordered_list_loop_eq.
    intros H. apply bind_raise in H as [H|(items & _ & H)]; [|discriminate].
    apply bind_raise in H as [H|(items & _ & H)]; [|discriminate].
    apply (li_nodes_error _ _ H).
  - unfold ordered_list_to_html_node.
    destruct (numbered_exists (Py.split block [nl]) 0 Hc) as [texts Hn].
    rewrite (ordered_list_items_loop_eq f _ _ _ [] Hn).
    intros H. apply bind_raise in H as [H|(items & _ & H)]; [|discriminate].
    apply bind_raise in H as [H|(items & _ & H)]; [|discriminate].
    apply (li_nodes_error _ _ H).
Qed.

Lemma document_loop_error (f : TextNode.t -> result HTMLNode)
  (blocks : list str) (children : list HTMLNode) (e : exn) :
  markdown_to_html_node_loop f blocks children = Raise e ->
  Items.passed_on f e.
Proof.
  revert children. induction blocks as [|block blocks IH]; intros acc;
    cbn [markdown_to_html_node_loop]; [discriminate|].
  intros H. apply bind_raise in H as [H|(child & _ & H)].
  - apply (block_error _ _ H).
  - apply (IH _ H).
Qed.

Lemma document_loop_children (f : TextNode.t -> result HTMLNode)
  (blocks : list str) (children out : list HTMLNode) :
  markdown_to_html_node_loop f blocks children = Ok out ->
  exists nodes,
    out = children ++ nodes /\
    Forall2 (fun block node => Items.block_node f block = Ok node)
            blocks nodes.
Proof.
  revert children. induction blocks as [|block blocks IH]; intros acc;
    cbn [markdown_to_html_node_loop].
  - intros H. inversion H; subst. exists []. rewrite app_nil_r.
    split; [reflexivity|constructor].
  - intros H. apply bind_ok in H as (child & Hchild & H).
    destruct (IH _ H) as (nodes & -> & Hall).
    exists (child :: nodes). rewrite <- app_assoc.
    split; [reflexivity|]. constructor; assumption.
Qed.

End DocumentFacts.

(** X5: for a block classified as UnorderedList, the list assembler
    builds a [ul] node with one [li] per line, over the children of the
    line without its dash and space, each line tokenized on its own. *)
Theorem unordered_list_to_html_node_of_list
  (text_node_to_html_node : TextNode.t -> result HTMLNode) (block : str) :
  block_to_block_type block = BlockType.UNORDERED_LIST ->
  exists texts,
    Forall2 (fun line text => line = "- " ++ text)
            (Py.split block [nl]) texts /\
    unordered_list_to_html_node text_node_to_html_node block =
    (html_items <- Items.li_nodes text_node_to_html_node texts ;;
     Ok (ParentNode "ul" html_items)).
Proof.
  intros H. pose proof (AssemblerFacts.classified block) as Hc.
  rewrite H in Hc. cbv zeta in Hc.
  exists (map (skipn 2) (Py.split block [nl])). split.
  - induction Hc as [|line lines [rest ->] _ IH]; simpl; constructor.
    + reflexivity.
    + exact IH.
  - unfold unordered_list_to_html_node.
    rewrite DocumentFacts.unordered_list_loop_eq.
    destruct (Items.li_nodes _ _); reflexivity.
Qed.

Lemma unordered_list_to_html_node_of_list_witness :
  exists texts,
    Forall2 (fun line text => line = "- " ++ text)
            (Py.split ("- one" ++ [nl] ++ "- **two**") [nl]) texts /\
    unordered_list_to_html_node Quote.plain_leaf
      ("- one" ++ [nl] ++ "- **two**") =
    (html_items <- Items.li_nodes Quote.plain_leaf texts ;;
     Ok (ParentNode "ul" html_items)).
Proof.
  apply (unordered_list_to_html_node_of_list Quote.plain_leaf
           ("- one" ++ [nl] ++ "- **two**")).
  reflexivity.
Defined.

(** X6: for a block classified as OrderedList, the list assembler never
    raises an index error: every line splits at its first full stop and
    space into its number and its text, and the result is an [ol] node
    with one [li] per line over the children of that text. *)
Theorem ordered_list_to_html_node_of_list
  (text_node_to_html_node : TextNode.t -> result HTMLNode) (block : str) :
  block_to_block_type block = BlockType.ORDERED_LIST ->
  exists texts,
    Items.numbered 0 (Py.split block [nl]) texts /\
    ordered_list_to_html_node text_node_to_html_node block =
    (html_items <- Items.li_nodes text_node_to_html_node texts ;;
     Ok (ParentNode "ol" html_items)).
Proof.
  intros H. pose proof (AssemblerFacts.classified block) as Hc.
  rewrite H in Hc. cbv zeta in Hc.
  destruct (DocumentFacts.numbered_exists (Py.split block [nl]) 0 Hc)
    as [texts Hn].
  exists texts. split; [exact Hn|].
  unfold ordered_list_to_html_node.
  rewrite (DocumentFacts.ordered_list_items_loop_eq
             text_node_to_html_node _ _ _ [] Hn).
  destruct (Items.li_nodes _ _); reflexivity.
Qed.

Lemma ordered_list_to_html_node_of_list_witness :
  exists texts,
    Items.numbered 0 (Py.split ("1. a. b" ++ [nl] ++ "2. c") [nl]) texts /\
    ordered_list_to_html_node Quote.plain_leaf ("1. a. b" ++ [nl] ++ "2. c") =
    (html_items <- Items.li_nodes Quote.plain_leaf texts ;;
     Ok (ParentNode "ol" html_items)).
Proof.
  apply (ordered_list_to_html_node_of_list Quote.plain_leaf
           ("1. a. b" ++ [nl] ++ "2. c")).
  reflexivity.
Defined.

(** X7: the paragraph assembler tokenizes the block with every newline
    replaced by one space, whatever the block, and wraps the children in
    a [p] node. *)
Theorem paragraph_to_html_node_unwraps_lines
  (text_node_to_html_node : TextNode.t -> result HTMLNode) (block : str) :
  paragraph_to_html_node text_node_to_html_node block =
  (children <- text_to_children text_node_to_html_node
                 (map Items.unwrap block) ;;
   Ok (ParentNode "p" children)).
Proof.
  unfold paragraph_to_html_node.
  rewrite (DocumentFacts.join_lines_aux block eq_refl). reflexivity.
Qed.

(** X8: the defensive errors of the assembler never leave the document
    converter.  An error it raises is the tokenizer's unclosed-section
    error or an error that the span renderer raised on some span: never
    an invalid heading level, code block or quote line, nor an index
    error. *)
Theorem markdown_to_html_node_errors
  (text_node_to_html_node : TextNode.t -> result HTMLNode)
  (markdown : str) (e : exn) :
  markdown_to_html_node text_node_to_html_node markdown = Raise e ->
  e = ValueError "invalid markdown, formatted section not closed" \/
  exists node, text_node_to_html_node node = Raise e.
Proof.
  unfold markdown_to_html_node. intros H.
  apply DocumentFacts.bind_raise in H as [H|(children & _ & H)];
    [|discriminate].
  apply (DocumentFacts.document_loop_error _ _ _ H).
Qed.

Lemma markdown_to_html_node_errors_witness :
  ValueError "invalid markdown, formatted section not closed" =
  ValueError "invalid markdown, formatted section not closed" \/
  exists node,
    Quote.plain_leaf node =
    Raise (ValueError "invalid markdown, formatted section not closed").
Proof.
  apply (markdown_to_html_node_errors Quote.plain_leaf
           ("# Title" ++ [nl; nl] ++ "an _unclosed mark")).
  reflexivity.
Defined.

(** X9: a successful conversion returns a root [div] node whose children
    are the nodes of the segmenter's blocks, one per block and in the
    order of the blocks, each built by the assembler of its block's
    type. *)
Theorem markdown_to_html_node_one_child_per_block
  (text_node_to_html_node : TextNode.t -> result HTMLNode)
  (markdown : str) (node : HTMLNode) :
  markdown_to_html_node text_node_to_html_node markdown = Ok node ->
  exists children,
    node = ParentNode "div" children /\
    length children = length (markdown_to_blocks markdown) /\
    Forall2 (fun block child =>
               Items.block_node text_node_to_html_node block = Ok child)
            (markdown_to_blocks markdown) children.
Proof.
  unfold markdown_to_html_node. intros H.
  apply DocumentFacts.bind_ok in H as (children & Hl & H).
  exists children. split; [inversion H; reflexivity|].
  apply DocumentFacts.document_loop_children in Hl as (nodes & -> & Hall).
  cbn [app]. split; [|exact Hall].
  symmetry. apply (Forall2_length Hall).
Qed.

Lemma markdown_to_html_node_one_child_per_block_witness :
  exists children,
    ParentNode "div"
      [ParentNode "h1" [LeafNode None "Title" None];
       ParentNode "p" [LeafNode None "text" None]]
    = ParentNode "div" children /\
    length children =
    length (markdown_to_blocks ("# Title" ++ [nl; nl] ++ "text")) /\
    Forall2 (fun block child =>
               Items.block_node Quote.plain_leaf block = Ok child)
            (markdown_to_blocks ("# Title" ++ [nl; nl] ++ "text")) children.
Proof.
  apply (markdown_to_html_node_one_child_per_block Quote.plain_leaf
           ("# Title" ++ [nl; nl] ++ "text")).
  reflexivity.
Defined.


(** ** More on the image and link passes *)

Module PassFacts.

Lemma source_app (a b : list TextNode.t) :
  Markup.source (a ++ b) = Markup.source a ++ Markup.source b.
Proof. unfold Markup.source. rewrite map_app, concat_app. reflexivity. Qed.

Lemma source_one (node : TextNode.t) :
  Markup.source [node] = Markup.source_text node.
Proof. unfold Markup.source. simpl. apply app_nil_r. Qed.

Lemma is_text (t : TextType.t) :
  negb (TextType.eqb t TextType.TEXT) = false -> t = TextType.TEXT.
Proof. destruct t; simpl; congruence. Qed.

(** The two sections of a successful split, or the whole text. *)
Lemma split1_cases (s lit : str) :
  (exists before after,
      Py.split1 s lit = [before; after] /\ s = before ++ lit ++ after) \/
  Py.split1 s lit = [s].
Proof.
  unfold Py.split1.
  destruct (Py.split_once s lit) as [[before after]|] eqn:E; [|auto].
  left. exists before, after. split; [reflexivity|].
  apply PyFacts.split_once_sound, E.
Qed.

(** The spans emitted so far, followed by the text that remains, always
    spell the same markdown. *)
Lemma image_inner_source (images : list (str * str)) :
  forall (original_text : str) (new_nodes : list TextNode.t) st,
    split_nodes_image_inner images original_text new_nodes = Ok st ->
    Markup.source (snd st) ++ fst st =
    Markup.source new_nodes ++ original_text.
Proof.
  induction images as [|[alt url] images IH]; intros r acc st;
    cbn [split_nodes_image_inner fst snd].
  - intros H. inversion H; subst. reflexivity.
  - destruct (split1_cases r ("![" ++ alt ++ "](" ++ url ++ ")"))
      as [(before & after & -> & Er)| ->];
      cbn [length Nat.eqb negb nth]; [|discriminate].
    intros H. apply IH in H. rewrite H, Er. clear H.
    rewrite source_app, source_one. cbn [Markup.source_text TextNode.text
      TextNode.text_type TextNode.url].
    destruct (PyFacts.eqb_spec before "") as [->|_]; cbn [negb].
    + rewrite <- !app_assoc. reflexivity.
    + rewrite source_app, source_one. cbn [Markup.source_text TextNode.text
        TextNode.text_type TextNode.url].
      rewrite <- !app_assoc. reflexivity.
Qed.

Lemma link_inner_source (links : list (str * str)) :
  forall (original_text : str) (new_nodes : list TextNode.t) st,
    split_nodes_link_inner links original_text new_nodes = Ok st ->
    Markup.source (snd st) ++ fst st =
    Markup.source new_nodes ++ original_text.
Proof.
  induction links as [|[label url] links IH]; intros r acc st;
    cbn [split_nodes_link_inner fst snd].
  - intros H. inversion H; subst. reflexivity.
  - destruct (split1_cases r ("[" ++ label ++ "](" ++ url ++ ")"))
      as [(before & after & -> & Er)| ->];
      cbn [length Nat.eqb negb nth]; [|discriminate].
    intros H. apply IH in H. rewrite H, Er. clear H.
    rewrite source_app, source_one. cbn [Markup.source_text TextNode.text
      TextNode.text_type TextNode.url].
    destruct (PyFacts.eqb_spec before "") as [->|_]; cbn [negb].
    + rewrite <- !app_assoc. reflexivity.
    + rewrite source_app, source_one. cbn [Markup.source_text TextNode.text
        TextNode.text_type TextNode.url].
      rewrite <- !app_assoc. reflexivity.
Qed.

Lemma text_source (node : TextNode.t) :
  TextNode.text_type node = TextType.TEXT ->
  Markup.source_text node = TextNode.text node.
Proof. unfold Markup.source_text. intros ->. reflexivity. Qed.

Lemma image_loop_source (old_nodes new_nodes out : list TextNode.t) :
  split_nodes_image_loop old_nodes new_nodes = Ok out ->
  Markup.source out = Markup.source new_nodes ++ Markup.source old_nodes.
Proof.
  revert new_nodes. induction old_nodes as [|node nodes IH]; intros acc;
    cbn [split_nodes_image_loop].
  - intros H. inversion H; subst. rewrite app_nil_r. reflexivity.
  - assert (forall acc',
               Markup.source acc' = Markup.source acc ++ Markup.source_text node ->
               split_nodes_image_loop nodes acc' = Ok out ->
               Markup.source out =
               Markup.source acc ++ Markup.source (node :: nodes)) as Hstep.
    { intros acc' E H. apply IH in H. rewrite H, E, <- app_assoc.
      reflexivity. }
    assert (Markup.source (acc ++ [node]) =
            Markup.source acc ++ Markup.source_text node) as Hpass
      by (rewrite source_app, source_one; reflexivity).
    destruct (negb (TextType.eqb (TextNode.text_type node) TextType.TEXT))
      eqn:Ht; [apply Hstep, Hpass|].
    apply is_text in Ht.
    destruct (length (extract_markdown_images (TextNode.text node)) =? 0);
      [apply Hstep, Hpass|].
    destruct (split_nodes_image_inner _ _ _) as [[remaining acc']|e] eqn:E;
      cbn [bind]; [|discriminate].
    apply image_inner_source in E. cbn [fst snd] in E.
    rewrite <- (text_source node Ht) in E.
    destruct (PyFacts.eqb_spec remaining "") as [->|_]; cbn [negb];
      apply Hstep.
    + rewrite <- E, app_nil_r. reflexivity.
    + rewrite source_app, source_one. exact E.
Qed.

Lemma link_loop_source (old_nodes new_nodes out : list TextNode.t) :
  split_nodes_link_loop old_nodes new_nodes = Ok out ->
  Markup.source out = Markup.source new_nodes ++ Markup.source old_nodes.
Proof.
  revert new_nodes. induction old_nodes as [|node nodes IH]; intros acc;
    cbn [split_nodes_link_loop].
  - intros H. inversion H; subst. rewrite app_nil_r. reflexivity.
  - assert (forall acc',
               Markup.source acc' = Markup.source acc ++ Markup.source_text node ->
               split_nodes_link_loop nodes acc' = Ok out ->
               Markup.source out =
               Markup.source acc ++ Markup.source (node :: nodes)) as Hstep.
    { intros acc' E H. apply IH in H. rewrite H, E, <- app_assoc.
      reflexivity. }
    assert (Markup.source (acc ++ [node]) =
            Markup.source acc ++ Markup.source_text node) as Hpass
      by (rewrite source_app, source_one; reflexivity).
    destruct (negb (TextType.eqb (TextNode.text_type node) TextType.TEXT))
      eqn:Ht; [apply Hstep, Hpass|].
    apply is_text in Ht.
    destruct (length (extract_markdown_links (TextNode.text node)) =? 0);
      [apply Hstep, Hpass|].
    destruct (split_nodes_link_inner _ _ _) as [[remaining acc']|e] eqn:E;
      cbn [bind]; [|discriminate].
    apply link_inner_source in E. cbn [fst snd] in E.
    rewrite <- (text_source node Ht) in E.
    destruct (PyFacts.eqb_spec remaining "") as [->|_]; cbn [negb];
      apply Hstep.
    + rewrite <- E, app_nil_r. reflexivity.
    + rewrite source_app, source_one. exact E.
Qed.

End PassFacts.

(** X10: the image pass succeeds on every list of spans and keeps the
    markdown they spell: writing every image span back as its marker and
    every other span as its text gives the same string before and after
    the pass. *)
Theorem split_nodes_image_keeps_source (old_nodes : list TextNode.t) :
  exists new_nodes,
    split_nodes_image old_nodes = Ok new_nodes /\
    Markup.source new_nodes = Markup.source old_nodes.
Proof.
  destruct (InlineFacts.image_loop_ok old_nodes []) as [out H].
  exists out. split; [exact H|].
  apply (PassFacts.image_loop_source _ _ H).
Qed.

(** X11: the link pass succeeds on every list of spans and keeps the
    markdown they spell. *)
Theorem split_nodes_link_keeps_source (old_nodes : list TextNode.t) :
  exists new_nodes,
    split_nodes_link old_nodes = Ok new_nodes /\
    Markup.source new_nodes = Markup.source old_nodes.
Proof.
  destruct (InlineFacts.link_loop_ok old_nodes []) as [out H].
  exists out. split; [exact H|].
  apply (PassFacts.link_loop_source _ _ H).
Qed.


(** ** More on extraction and on the delimiter pass *)

Module ExtractFacts.

Lemma span_forall (p : ascii -> bool) (s a b : str) :
  span p s = (a, b) -> forallb p a = true.
Proof.
  revert a b. induction s as [|c s IH]; intros a b H; simpl in H.
  - inversion H; subst. reflexivity.
  - destruct (p c) eqn:Hc.
    + destruct (span p s) as [a' b'] eqn:E. inversion H; subst.
      simpl. rewrite Hc. apply (IH _ _ eq_refl).
    + inversion H; subst. reflexivity.
Qed.

(** The groups of a match stay within their character classes. *)
Lemma match_link_at_groups (s g1 g2 rest : str) :
  match_link_at s = Some (g1, g2, rest) ->
  forallb not_bracket g1 = true /\ forallb not_paren g2 = true.
Proof.
  unfold match_link_at. intros H.
  destruct s as [|c s1]; [discriminate|].
  char_case c "["%char H.
  destruct (span not_bracket s1) as [a s2] eqn:E1.
  apply span_forall in E1.
  destruct s2 as [|c2 s2]; [discriminate|].
  char_case c2 "]"%char H.
  destruct s2 as [|c3 s3]; [discriminate|].
  char_case c3 "("%char H.
  destruct (span not_paren s3) as [b s4] eqn:E2.
  apply span_forall in E2.
  destruct s4 as [|c4 s5]; [discriminate|].
  char_case c4 ")"%char H.
  inversion H; subst. auto.
Qed.

Lemma match_image_at_groups (s g1 g2 rest : str) :
  match_image_at s = Some (g1, g2, rest) ->
  forallb not_bracket g1 = true /\ forallb not_paren g2 = true.
Proof.
  unfold match_image_at. intros H.
  destruct s as [|c s1]; [discriminate|].
  char_case c "!"%char H.
  apply (match_link_at_groups _ H).
Qed.

Lemma contains_later (c : ascii) (s lit : str) :
  Py.contains s lit = true -> Py.contains (c :: s) lit = true.
Proof.
  rewrite !PyFacts.contains_iff. intros (a & b & ->).
  exists (c :: a), b. reflexivity.
Qed.

Lemma contains_after (pre s lit : str) :
  Py.contains s lit = true -> Py.contains (pre ++ s) lit = true.
Proof.
  intros H. induction pre as [|c pre IH]; [exact H|].
  apply contains_later, IH.
Qed.

Lemma contains_head (lit rest : str) :
  Py.contains (lit ++ rest) lit = true.
Proof. apply PyFacts.contains_iff. exists [], rest. reflexivity. Qed.

Lemma findall_images_pairs (s : str) (pair : str * str) :
  In pair (findall_images s) -> Markup.well_formed "!" s pair.
Proof.
  funelim (findall_images s); intros Hin.
  - destruct Hin.
  - destruct Hin as [<-|Hin].
    + pose proof (match_image_at_sound _ e) as Es.
      destruct (match_image_at_groups _ e) as [H1 H2].
      split; [|auto]. rewrite Es. cbn [fst snd].
      replace ("![" ++ alt ++ "](" ++ url ++ ")" ++ rest)
        with (("![" ++ alt ++ "](" ++ url ++ ")") ++ rest)
        by (InlineFacts.norm_app; reflexivity).
      apply contains_head.
    + destruct (H _ Hin) as (Hc & Hg). split; [|exact Hg].
      pose proof (match_image_at_sound _ e) as Es. rewrite Es.
      replace ("![" ++ alt ++ "](" ++ url ++ ")" ++ rest)
        with (("![" ++ alt ++ "](" ++ url ++ ")") ++ rest)
        by (InlineFacts.norm_app; reflexivity).
      apply contains_after, Hc.
  - destruct (H _ Hin) as (Hc & Hg). split; [|exact Hg].
    apply contains_later, Hc.
Qed.

Lemma findall_links_pairs (bang : bool) (s : str) (pair : str * str) :
  In pair (findall_links bang s) -> Markup.well_formed "" s pair.
Proof.
  funelim (findall_links bang s); intros Hin.
  - destruct Hin.
  - destruct (H _ Hin) as (Hc & Hg). split; [|exact Hg].
    apply contains_later, Hc.
  - destruct Hin as [<-|Hin].
    + pose proof (match_link_at_sound _ e) as Es.
      destruct (match_link_at_groups _ e) as [H1 H2].
      split; [|auto]. rewrite Es. cbn [fst snd].
      replace ("[" ++ label ++ "](" ++ url ++ ")" ++ rest)
        with (("[" ++ label ++ "](" ++ url ++ ")") ++ rest)
        by (InlineFacts.norm_app; reflexivity).
      apply contains_head.
    + destruct (H _ Hin) as (Hc & Hg). split; [|exact Hg].
      pose proof (match_link_at_sound _ e) as Es. rewrite Es.
      replace ("[" ++ label ++ "](" ++ url ++ ")" ++ rest)
        with (("[" ++ label ++ "](" ++ url ++ ")") ++ rest)
        by (InlineFacts.norm_app; reflexivity).
      apply contains_after, Hc.
  - destruct (H _ Hin) as (Hc & Hg). split; [|exact Hg].
    apply contains_later, Hc.
Qed.

Lemma class_not_in (p : ascii -> bool) (c : ascii) (s : str) :
  p c = false -> forallb p s = true -> ~ In c s.
Proof.
  intros Hc H Hin. rewrite forallb_forall in H. rewrite (H c Hin) in Hc.
  discriminate.
Qed.

End ExtractFacts.

(** X12: every pair the image extraction returns is in the text as an
    image marker, and every pair the link extraction returns is in the
    text as a link marker; the label holds no square bracket and the url
    no parenthesis. *)
Theorem extracted_pairs_are_markers (text label url : str) :
  (In (label, url) (extract_markdown_images text) ->
   Py.contains text ("![" ++ label ++ "](" ++ url ++ ")") = true) /\
  (In (label, url) (extract_markdown_links text) ->
   Py.contains text ("[" ++ label ++ "](" ++ url ++ ")") = true) /\
  (In (label, url) (extract_markdown_images text) \/
   In (label, url) (extract_markdown_links text) ->
   ~ In "["%char label /\ ~ In "]"%char label /\
   ~ In "("%char url /\ ~ In ")"%char url).
Proof.
  split; [|split].
  - intros H. apply (ExtractFacts.findall_images_pairs _ _ H).
  - intros H. apply (ExtractFacts.findall_links_pairs _ _ _ H).
  - intros H.
    assert (forallb not_bracket label = true /\
            forallb not_paren url = true) as [Hl Hu].
    { destruct H as [H|H].
      - apply (ExtractFacts.findall_images_pairs _ _ H).
      - apply (ExtractFacts.findall_links_pairs _ _ _ H). }
    repeat split;
      (eapply ExtractFacts.class_not_in; [|eassumption]); reflexivity.
Qed.

Lemma extracted_pairs_are_markers_witness :
  Py.contains "see ![a](b) and [c](d)" "[c](d)" = true.
Proof.
  apply (proj1 (proj2 (extracted_pairs_are_markers
                         "see ![a](b) and [c](d)" "c" "d"))).
  left. reflexivity.
Defined.


Module DelimiterMore.

Lemma loop_ok_inv (nodes : list TextNode.t) (delimiter : str)
  (text_type : TextType.t) (acc out : list TextNode.t) :
  delimiter <> [] ->
  split_nodes_delimiter_loop nodes delimiter text_type acc = Ok out ->
  out = acc ++ Spans.delimiter_pass nodes delimiter text_type.
Proof.
  intros Hd. revert acc. induction nodes as [|node nodes IH]; intros acc.
  - simpl. intros H. inversion H; subst. rewrite app_nil_r. reflexivity.
  - cbn [Spans.delimiter_pass flat_map].
    destruct (TextNode.text_type node) eqn:Ht;
      try (rewrite DelimiterFacts.loop_other by congruence;
           intros H; rewrite (IH _ H), <- app_assoc; reflexivity).
    rewrite DelimiterFacts.loop_text by assumption.
    destruct (Nat.odd _); [discriminate|].
    intros H. rewrite (IH _ H), <- app_assoc. reflexivity.
Qed.

(** The spans made from a text. *)
Lemma spans_made (s delimiter : str) (text_type : TextType.t)
  (node : TextNode.t) :
  delimiter <> [] ->
  In node (Spans.delimiter_spans s delimiter text_type) ->
  TextNode.url node = None /\
  TextNode.text node <> [] /\
  Py.contains (TextNode.text node) delimiter = false.
Proof.
  intros Hd Hin.
  pose proof (@DelimiterFacts.delimiter_spans_nonempty _ _ _ _ Hin) as Hne.
  unfold Spans.delimiter_spans in Hin. rewrite in_map_iff in Hin.
  destruct Hin as ([i x] & <- & Hin). apply filter_In in Hin as [Hin _].
  apply in_combine_r in Hin. cbn [TextNode.url TextNode.text snd] in *.
  repeat split; [exact Hne|].
  apply (SplitFacts.split_pieces_absent s); assumption.
Qed.

Lemma pass_settled (nodes : list TextNode.t) (delimiter : str)
  (text_type : TextType.t) :
  delimiter <> [] ->
  Forall (Markup.settled delimiter)
         (Spans.delimiter_pass nodes delimiter text_type).
Proof.
  intros Hd. apply Forall_forall. intros node Hin.
  unfold Spans.delimiter_pass in Hin.
  apply in_flat_map in Hin as (old & _ & Hin).
  destruct (TextNode.text_type old) eqn:Ht;
    try (destruct Hin as [<-|[]]; intros Ht'; congruence).
  intros _. eapply spans_made; eassumption.
Qed.

Lemma spans_settled (node : TextNode.t) (delimiter : str)
  (text_type : TextType.t) :
  delimiter <> [] ->
  TextNode.text_type node = TextType.TEXT ->
  Markup.settled delimiter node ->
  Nat.odd (Py.count (TextNode.text node) delimiter) = false /\
  Spans.delimiter_spans (TextNode.text node) delimiter text_type = [node].
Proof.
  intros Hd Ht Hs. destruct (Hs Ht) as (Hu & Hne & Hc).
  destruct node as [s t u]. cbn [TextNode.text TextNode.text_type
    TextNode.url] in *. subst t u.
  rewrite (PyFacts.count_unfold s Hd).
  unfold Spans.delimiter_spans. rewrite (PyFacts.split_absent _ _ Hc).
  unfold Py.contains in Hc.
  destruct (Py.split_once s delimiter); [discriminate|].
  split; [reflexivity|].
  cbn. destruct (PyFacts.eqb_spec s ""); [congruence|]. reflexivity.
Qed.

Lemma loop_settled (nodes : list TextNode.t) (delimiter : str)
  (text_type : TextType.t) (acc : list TextNode.t) :
  delimiter <> [] ->
  Forall (Markup.settled delimiter) nodes ->
  split_nodes_delimiter_loop nodes delimiter text_type acc = Ok (acc ++ nodes).
Proof.
  intros Hd H. revert acc. induction H as [|node nodes Hn _ IH]; intros acc.
  - simpl. rewrite app_nil_r. reflexivity.
  - replace (acc ++ node :: nodes) with ((acc ++ [node]) ++ nodes)
      by (rewrite <- app_assoc; reflexivity).
    destruct (TextNode.text_type node) eqn:Ht;
      try (rewrite DelimiterFacts.loop_other by congruence; apply IH).
    rewrite DelimiterFacts.loop_text by assumption.
    destruct (@spans_settled node delimiter text_type Hd Ht Hn) as [-> ->].
    apply IH.
Qed.

(** The accumulator only carries what the earlier spans gave. *)
Lemma loop_acc (nodes : list TextNode.t) (delimiter : str)
  (text_type : TextType.t) (acc : list TextNode.t) :
  split_nodes_delimiter_loop nodes delimiter text_type acc =
  (out <- split_nodes_delimiter_loop nodes delimiter text_type [] ;;
   Ok (acc ++ out)).
Proof.
  revert acc. induction nodes as [|node nodes IH]; intros acc;
    cbn [split_nodes_delimiter_loop].
  - cbn [bind]. rewrite app_nil_r. reflexivity.
  - assert (forall made,
               split_nodes_delimiter_loop nodes delimiter text_type
                 (acc ++ made) =
               (out <- split_nodes_delimiter_loop nodes delimiter text_type
                         ([] ++ made) ;;
                Ok (acc ++ out))) as Hstep.
    { intros made. rewrite (IH (acc ++ made)), (IH ([] ++ made)).
      destruct (split_nodes_delimiter_loop nodes delimiter text_type []);
        cbn [bind app]; [|reflexivity].
      rewrite <- app_assoc. reflexivity. }
    destruct (negb (TextType.eqb (TextNode.text_type node) TextType.TEXT));
      [apply Hstep|].
    destruct (Py.split_checked (TextNode.text node) delimiter)
      as [sections|e]; cbn [bind]; [|reflexivity].
    destruct (length sections mod 2 =? 0); [reflexivity|apply Hstep].
Qed.

Lemma loop_app (a b : list TextNode.t) (delimiter : str)
  (text_type : TextType.t) (acc : list TextNode.t) :
  split_nodes_delimiter_loop (a ++ b) delimiter text_type acc =
  (acc' <- split_nodes_delimiter_loop a delimiter text_type acc ;;
   split_nodes_delimiter_loop b delimiter text_type acc').
Proof.
  revert acc. induction a as [|node a IH]; intros acc;
    cbn [app split_nodes_delimiter_loop]; [reflexivity|].
  destruct (negb (TextType.eqb (TextNode.text_type node) TextType.TEXT));
    [apply IH|].
  destruct (Py.split_checked (TextNode.text node) delimiter)
    as [sections|e]; cbn [bind]; [|reflexivity].
  destruct (length sections mod 2 =? 0); [reflexivity|apply IH].
Qed.

End DelimiterMore.

(** X13: the delimiter pass is idempotent.  When it succeeds, no Text
    span of its result holds the delimiter, and running the pass again on
    the result, with the same delimiter and target type, returns the
    result unchanged. *)
Theorem split_nodes_delimiter_idempotent (old_nodes new_nodes : list TextNode.t)
  (delimiter : str) (text_type : TextType.t) :
  delimiter <> [] ->
  split_nodes_delimiter old_nodes delimiter text_type = Ok new_nodes ->
  split_nodes_delimiter new_nodes delimiter text_type = Ok new_nodes /\
  forall node,
    In node new_nodes ->
    TextNode.text_type node = TextType.TEXT ->
    Py.contains (TextNode.text node) delimiter = false.
Proof.
  intros Hd H. apply (@DelimiterMore.loop_ok_inv _ _ _ _ _ Hd) in H.
  cbn [app] in H. subst new_nodes.
  pose proof (@DelimiterMore.pass_settled old_nodes delimiter text_type Hd)
    as Hs.
  split.
  - unfold split_nodes_delimiter.
    rewrite (@DelimiterMore.loop_settled _ delimiter text_type [] Hd Hs).
    reflexivity.
  - intros node Hin Ht. rewrite Forall_forall in Hs.
    apply (Hs node Hin Ht).
Qed.

Lemma split_nodes_delimiter_idempotent_witness :
  split_nodes_delimiter
    [TextNode.mk "a" TextType.TEXT None; TextNode.mk "b" TextType.ITALIC None;
     TextNode.mk "c" TextType.TEXT None] "_" TextType.ITALIC
  = Ok [TextNode.mk "a" TextType.TEXT None;
        TextNode.mk "b" TextType.ITALIC None;
        TextNode.mk "c" TextType.TEXT None].
Proof.
  apply (@split_nodes_delimiter_idempotent
           [TextNode.mk "a_b_c" TextType.TEXT None] _ "_" TextType.ITALIC).
  - discriminate.
  - reflexivity.
Defined.

(** X14: the delimiter pass works span by span: on two lists put end to
    end it gives the results on each, put end to end, and fails as soon
    as it fails on either, the first list first. *)
Theorem split_nodes_delimiter_app (a b : list TextNode.t) (delimiter : str)
  (text_type : TextType.t) :
  split_nodes_delimiter (a ++ b) delimiter text_type =
  (x <- split_nodes_delimiter a delimiter text_type ;;
   y <- split_nodes_delimiter b delimiter text_type ;;
   Ok (x ++ y)).
Proof.
  unfold split_nodes_delimiter. rewrite DelimiterMore.loop_app.
  destruct (split_nodes_delimiter_loop a delimiter text_type []) as [x|e];
    cbn [bind]; [|reflexivity].
  apply DelimiterMore.loop_acc.
Qed.


(** ** Empty spans *)

Module SolidFacts.

Lemma solid_text (s : str) :
  s <> [] -> Markup.solid (TextNode.mk s TextType.TEXT None).
Proof. intros H. left. exact H. Qed.

Lemma delimiter_pass_solid (nodes out : list TextNode.t) (delimiter : str)
  (text_type : TextType.t) :
  delimiter <> [] ->
  Forall (fun node => TextNode.text_type node <> TextType.TEXT ->
                      Markup.solid node) nodes ->
  split_nodes_delimiter nodes delimiter text_type = Ok out ->
  Forall Markup.solid out.
Proof.
  intros Hd Hall H. apply (@DelimiterMore.loop_ok_inv _ _ _ _ _ Hd) in H.
  cbn [app] in H. subst out. apply Forall_forall. intros node Hin.
  unfold Spans.delimiter_pass in Hin.
  apply in_flat_map in Hin as (old & Hold & Hin).
  rewrite Forall_forall in Hall. specialize (Hall old Hold).
  destruct (TextNode.text_type old) eqn:Ht;
    try (destruct Hin as [<-|[]]; apply Hall; congruence).
  left. eapply DelimiterFacts.delimiter_spans_nonempty, Hin.
Qed.

Lemma image_inner_solid (images : list (str * str)) :
  forall (original_text : str) (new_nodes : list TextNode.t) st,
    Forall Markup.solid new_nodes ->
    split_nodes_image_inner images original_text new_nodes = Ok st ->
    Forall Markup.solid (snd st).
Proof.
  induction images as [|[alt url] images IH]; intros r acc st Hacc;
    cbn [split_nodes_image_inner fst snd].
  - intros H. inversion H; subst. exact Hacc.
  - destruct (PassFacts.split1_cases r ("![" ++ alt ++ "](" ++ url ++ ")"))
      as [(before & after & -> & _)| ->];
      cbn [length Nat.eqb negb nth]; [|discriminate].
    apply IH. apply Forall_app. split.
    + destruct (PyFacts.eqb_spec before ""); cbn [negb]; [exact Hacc|].
      apply Forall_app. split; [exact Hacc|].
      constructor; [apply solid_text; assumption|constructor].
    + constructor; [|constructor]. right. left. reflexivity.
Qed.

Lemma link_inner_solid (links : list (str * str)) :
  forall (original_text : str) (new_nodes : list TextNode.t) st,
    Forall Markup.solid new_nodes ->
    split_nodes_link_inner links original_text new_nodes = Ok st ->
    Forall Markup.solid (snd st).
Proof.
  induction links as [|[label url] links IH]; intros r acc st Hacc;
    cbn [split_nodes_link_inner fst snd].
  - intros H. inversion H; subst. exact Hacc.
  - destruct (PassFacts.split1_cases r ("[" ++ label ++ "](" ++ url ++ ")"))
      as [(before & after & -> & _)| ->];
      cbn [length Nat.eqb negb nth]; [|discriminate].
    apply IH. apply Forall_app. split.
    + destruct (PyFacts.eqb_spec before ""); cbn [negb]; [exact Hacc|].
      apply Forall_app. split; [exact Hacc|].
      constructor; [apply solid_text; assumption|constructor].
    + constructor; [|constructor]. right. right. reflexivity.
Qed.

Lemma image_loop_solid (old_nodes new_nodes out : list TextNode.t) :
  Forall Markup.solid new_nodes ->
  Forall Markup.solid old_nodes ->
  split_nodes_image_loop old_nodes new_nodes = Ok out ->
  Forall Markup.solid out.
Proof.
  intros Hacc Hold. revert new_nodes Hacc.
  induction Hold as [|node nodes Hn _ IH]; intros acc Hacc;
    cbn [split_nodes_image_loop].
  - intros H. inversion H; subst. exact Hacc.
  - assert (Forall Markup.solid (acc ++ [node])) as Hpass.
    { apply Forall_app. split; [exact Hacc|]. constructor; [exact Hn|].
      constructor. }
    destruct (negb (TextType.eqb (TextNode.text_type node) TextType.TEXT));
      [apply IH, Hpass|].
    destruct (length (extract_markdown_images (TextNode.text node)) =? 0);
      [apply IH, Hpass|].
    destruct (split_nodes_image_inner _ _ _) as [[remaining acc']|e] eqn:E;
      cbn [bind]; [|discriminate].
    apply (image_inner_solid _ _ Hacc) in E. cbn [snd] in E.
    destruct (PyFacts.eqb_spec remaining ""); cbn [negb]; apply IH;
      [exact E|].
    apply Forall_app. split; [exact E|].
    constructor; [apply solid_text; assumption|constructor].
Qed.

Lemma link_loop_solid (old_nodes new_nodes out : list TextNode.t) :
  Forall Markup.solid new_nodes ->
  Forall Markup.solid old_nodes ->
  split_nodes_link_loop old_nodes new_nodes = Ok out ->
  Forall Markup.solid out.
Proof.
  intros Hacc Hold. revert new_nodes Hacc.
  induction Hold as [|node nodes Hn _ IH]; intros acc Hacc;
    cbn [split_nodes_link_loop].
  - intros H. inversion H; subst. exact Hacc.
  - assert (Forall Markup.solid (acc ++ [node])) as Hpass.
    { apply Forall_app. split; [exact Hacc|]. constructor; [exact Hn|].
      constructor. }
    destruct (negb (TextType.eqb (TextNode.text_type node) TextType.TEXT));
      [apply IH, Hpass|].
    destruct (length (extract_markdown_links (TextNode.text node)) =? 0);
      [apply IH, Hpass|].
    destruct (split_nodes_link_inner _ _ _) as [[remaining acc']|e] eqn:E;
      cbn [bind]; [|discriminate].
    apply (link_inner_solid _ _ Hacc) in E. cbn [snd] in E.
    destruct (PyFacts.eqb_spec remaining ""); cbn [negb]; apply IH;
      [exact E|].
    apply Forall_app. split; [exact E|].
    constructor; [apply solid_text; assumption|constructor].
Qed.

Lemma weaken (nodes : list TextNode.t) :
  Forall Markup.solid nodes ->
  Forall (fun node => TextNode.text_type node <> TextType.TEXT ->
                      Markup.solid node) nodes.
Proof. apply Forall_impl. auto. Qed.

End SolidFacts.

(** X15: the tokenizer never returns an empty piece of text: every span of
    a successful tokenization has a non-empty text, except for images and
    links, whose label may be empty. *)
Theorem text_to_textnodes_no_empty_span (text : str) (nodes : list TextNode.t)
  (node : TextNode.t) :
  text_to_textnodes text = Ok nodes ->
  In node nodes ->
  TextNode.text node <> [] \/
  TextNode.text_type node = TextType.IMAGE \/
  TextNode.text_type node = TextType.LINK.
Proof.
  unfold text_to_textnodes. intros H Hin.
  apply DocumentFacts.bind_ok in H as (n1 & H1 & H).
  apply DocumentFacts.bind_ok in H as (n2 & H2 & H).
  apply DocumentFacts.bind_ok in H as (n3 & H3 & H).
  apply DocumentFacts.bind_ok in H as (n4 & H4 & H).
  apply DocumentFacts.bind_ok in H as (n5 & H5 & H).
  inversion H; subst nodes. clear H.
  apply (@SolidFacts.delimiter_pass_solid _ _ "**" _ ltac:(discriminate))
    in H1; [|constructor; [intros Ht; exfalso; apply Ht; reflexivity
                          |constructor]].
  apply (@SolidFacts.delimiter_pass_solid _ _ "_" _ ltac:(discriminate)
           (SolidFacts.weaken H1)) in H2.
  apply (@SolidFacts.delimiter_pass_solid _ _ "`" _ ltac:(discriminate)
           (SolidFacts.weaken H2)) in H3.
  apply (@SolidFacts.image_loop_solid _ [] _ (Forall_nil _) H3) in H4.
  apply (@SolidFacts.link_loop_solid _ [] _ (Forall_nil _) H4) in H5.
  rewrite Forall_forall in H5. apply (H5 node Hin).
Qed.

Lemma text_to_textnodes_no_empty_span_witness :
  TextNode.text (TextNode.mk "" TextType.IMAGE (Some "u")) <> [] \/
  TextNode.text_type (TextNode.mk "" TextType.IMAGE (Some "u"))
    = TextType.IMAGE \/
  TextNode.text_type (TextNode.mk "" TextType.IMAGE (Some "u"))
    = TextType.LINK.
Proof.
  apply (@text_to_textnodes_no_empty_span "****![](u)**bold**"
           [TextNode.mk "" TextType.IMAGE (Some "u");
            TextNode.mk "bold" TextType.BOLD None]).
  - reflexivity.
  - left. reflexivity.
Defined.


(** ** Markers left in the Text spans *)

Module CleanFacts.

(** A match does not depend on what follows it. *)
Lemma match_link_at_extend (x y g1 g2 rest : str) :
  match_link_at x = Some (g1, g2, rest) ->
  match_link_at (x ++ y) = Some (g1, g2, rest ++ y).
Proof.
  intros H. destruct (ExtractFacts.match_link_at_groups _ H) as [H1 H2].
  apply match_link_at_sound in H. subst x.
  replace (("[" ++ g1 ++ "](" ++ g2 ++ ")" ++ rest) ++ y)
    with ("[" ++ g1 ++ "](" ++ g2 ++ ")" ++ rest ++ y)
    by (InlineFacts.norm_app; reflexivity).
  apply InlineFacts.match_link_at_literal; assumption.
Qed.

Lemma match_image_at_extend (x y g1 g2 rest : str) :
  match_image_at x = Some (g1, g2, rest) ->
  match_image_at (x ++ y) = Some (g1, g2, rest ++ y).
Proof.
  intros H. pose proof (match_image_at_sound _ H) as Ex.
  destruct x as [|c x1]; [discriminate|].
  assert (c = "!"%char) as -> by (cbn [app] in Ex; congruence).
  cbn [match_image_at] in H. cbn [app match_image_at].
  apply match_link_at_extend, H.
Qed.

(** A text that starts with the literal of a well-formed pair matches. *)
Lemma match_link_at_start (s label url : str) :
  forallb not_bracket label = true ->
  forallb not_paren url = true ->
  Py.startswith s ("[" ++ label ++ "](" ++ url ++ ")") = true ->
  exists rest, match_link_at s = Some (label, url, rest).
Proof.
  intros Hl Hu H. apply PyFacts.startswith_iff in H as [rest ->].
  exists rest.
  replace (("[" ++ label ++ "](" ++ url ++ ")") ++ rest)
    with ("[" ++ label ++ "](" ++ url ++ ")" ++ rest)
    by (InlineFacts.norm_app; reflexivity).
  apply InlineFacts.match_link_at_literal; assumption.
Qed.

Lemma match_image_at_start (s label url : str) :
  forallb not_bracket label = true ->
  forallb not_paren url = true ->
  Py.startswith s ("![" ++ label ++ "](" ++ url ++ ")") = true ->
  exists rest, match_image_at s = Some (label, url, rest).
Proof.
  intros Hl Hu H. apply PyFacts.startswith_iff in H as [rest ->].
  exists rest. cbn [app match_image_at].
  etransitivity;
    [|apply (InlineFacts.match_link_at_literal label url rest Hl Hu)].
  f_equal. InlineFacts.norm_app. reflexivity.
Qed.

(** *** Texts without an image marker *)

Lemma images_nil_cons (c : ascii) (s : str) :
  findall_images (c :: s) = [] ->
  match_image_at (c :: s) = None /\ findall_images s = [].
Proof.
  rewrite InlineFacts.findall_images_unfold.
  destruct (match_image_at (c :: s)) as [[[a u] r]|]; [discriminate|auto].
Qed.

Lemma images_nil_suffix (x s : str) :
  findall_images (x ++ s) = [] -> findall_images s = [].
Proof.
  induction x as [|c x IH]; [auto|]. cbn [app]. intros H.
  apply images_nil_cons in H as [_ H]. auto.
Qed.

Lemma images_nil_prefix (s y : str) :
  findall_images (s ++ y) = [] -> findall_images s = [].
Proof.
  induction s as [|c s IH]; intros H.
  - simp findall_images. reflexivity.
  - cbn [app] in H. apply images_nil_cons in H as [Hm H].
    rewrite InlineFacts.findall_images_unfold.
    destruct (match_image_at (c :: s)) as [[[a u] r]|] eqn:E; [|auto].
    apply (@match_image_at_extend (c :: s) y) in E. cbn [app] in E.
    congruence.
Qed.

Lemma images_nil_infix (a x b : str) :
  findall_images (a ++ x ++ b) = [] -> findall_images x = [].
Proof.
  intros H. apply images_nil_suffix in H. apply images_nil_prefix in H.
  exact H.
Qed.

(** The literal of the first pair is first found where the pattern
    matched: the split cuts there, nothing matches before, and the other
    pairs are those of the text after. *)
Lemma findall_images_exact (s alt url : str) (others : list (str * str)) :
  findall_images s = (alt, url) :: others ->
  exists pre post,
    Py.split_once s ("![" ++ alt ++ "](" ++ url ++ ")") = Some (pre, post) /\
    findall_images pre = [] /\
    others = findall_images post.
Proof.
  intros Hall.
  assert (forallb not_bracket alt = true /\ forallb not_paren url = true)
    as [Ha Hu].
  { apply (@ExtractFacts.findall_images_pairs s (alt, url)).
    rewrite Hall. left. reflexivity. }
  revert Hall. induction s as [|c s IH].
  - simp findall_images. discriminate.
  - rewrite InlineFacts.findall_images_unfold.
    destruct (match_image_at (c :: s)) as [[[a u] rest]|] eqn:E.
    + intros H. inversion H; subst.
      apply match_image_at_sound in E. exists [], rest.
      rewrite E. split; [|split; [|reflexivity]].
      * etransitivity;
          [|apply (@SplitFacts.split_once_first [] "!"%char
                     ("[" ++ alt ++ "](" ++ url ++ ")") rest (Forall_nil _))].
        f_equal. InlineFacts.norm_app. reflexivity.
      * simp findall_images. reflexivity.
    + intros H. destruct (IH H) as (pre & post & Hs & Hp & Ho).
      exists (c :: pre), post. split; [|split; [|exact Ho]].
      * cbn [Py.split_once].
        destruct (Py.startswith (c :: s) ("![" ++ alt ++ "](" ++ url ++ ")"))
          eqn:Est.
        -- destruct (@match_image_at_start (c :: s) alt url Ha Hu Est)
             as [r Hr].
           congruence.
        -- rewrite Hs. reflexivity.
      * rewrite InlineFacts.findall_images_unfold.
        destruct (match_image_at (c :: pre)) as [[[a u] r]|] eqn:E'; [|auto].
        apply PyFacts.split_once_sound in Hs.
        apply (@match_image_at_extend (c :: pre)
                 (("![" ++ alt ++ "](" ++ url ++ ")") ++ post)) in E'.
        cbn [app] in E'. rewrite Hs in E. cbn [app] in E. congruence.
Qed.

(** *** Texts without an image marker and their links *)

Lemma findall_links_exact (s label url : str) (others : list (str * str)) :
  forall bang,
    findall_links bang s = (label, url) :: others ->
    findall_images s = [] ->
    (bang = true -> match_link_at s = None) ->
    exists pre post,
      Py.split_once s ("[" ++ label ++ "](" ++ url ++ ")") = Some (pre, post) /\
      findall_links bang pre = [] /\
      others = findall_links false post.
Proof.
  intros bang Hall.
  assert (forallb not_bracket label = true /\ forallb not_paren url = true)
    as [Ha Hu].
  { apply (@ExtractFacts.findall_links_pairs bang s (label, url)).
    rewrite Hall. left. reflexivity. }
  revert bang Hall. induction s as [|c s IH]; intros bang.
  - simp findall_links. discriminate.
  - rewrite InlineFacts.findall_links_unfold. intros Hall Hi Hb.
    apply images_nil_cons in Hi as [Hm Hi].
    assert (Ascii.eqb c "!"%char = true -> match_link_at s = None) as Hnext.
    { intros Hc. apply Ascii.eqb_eq in Hc. subst c. exact Hm. }
    assert (forall b,
               (b = true -> match_link_at (c :: s) = None) ->
               match_link_at (c :: s) = None ->
               findall_links (Ascii.eqb c "!"%char) s = (label, url) :: others ->
               (forall pre, findall_links (Ascii.eqb c "!"%char) pre = [] ->
                            match_link_at (c :: pre) = None ->
                            findall_links b (c :: pre) = []) ->
               exists pre post,
                 Py.split_once (c :: s) ("[" ++ label ++ "](" ++ url ++ ")")
                   = Some (pre, post) /\
                 findall_links b pre = [] /\
                 others = findall_links false post) as Hskip.
    { intros b _ Hnone H Hpre.
      destruct (IH _ H Hi Hnext) as (pre & post & Hs & Hp & Ho).
      exists (c :: pre), post. split; [|split; [|exact Ho]].
      - cbn [Py.split_once].
        destruct (Py.startswith (c :: s) ("[" ++ label ++ "](" ++ url ++ ")"))
          eqn:Est.
        + destruct (@match_link_at_start (c :: s) label url Ha Hu Est)
            as [r Hr].
          congruence.
        + rewrite Hs. reflexivity.
      - apply Hpre; [exact Hp|].
        destruct (match_link_at (c :: pre)) as [[[a u] r]|] eqn:E';
          [|reflexivity].
        apply PyFacts.split_once_sound in Hs.
        apply (@match_link_at_extend (c :: pre)
                 (("[" ++ label ++ "](" ++ url ++ ")") ++ post)) in E'.
        cbn [app] in E'. rewrite Hs in Hnone. cbn [app] in Hnone.
        congruence. }
    destruct bang.
    + apply (Hskip true Hb (Hb eq_refl) Hall).
      intros pre Hp _. rewrite InlineFacts.findall_links_unfold. exact Hp.
    + destruct (match_link_at (c :: s)) as [[[a u] rest]|] eqn:E.
      * inversion Hall; subst.
        apply match_link_at_sound in E. exists [], rest.
        rewrite E. split; [|split; [|reflexivity]].
        -- etransitivity;
             [|apply (@SplitFacts.split_once_first [] "["%char
                        (label ++ "](" ++ url ++ ")") rest (Forall_nil _))].
           f_equal. InlineFacts.norm_app. reflexivity.
        -- simp findall_links. reflexivity.
      * apply (Hskip false ltac:(discriminate) eq_refl Hall).
        intros pre Hp Hnone. rewrite InlineFacts.findall_links_unfold.
        rewrite Hnone. exact Hp.
Qed.

(** *** What the passes keep of the Text spans *)

Lemma split_piece_infix (s sep piece : str) :
  In piece (Py.split s sep) -> exists a b, s = a ++ piece ++ b.
Proof.
  funelim (Py.split s sep); intros Hin.
  - destruct Hin as [<-|[]]. exists [], []. rewrite app_nil_r. reflexivity.
  - pose proof (PyFacts.split_once_sound _ _ e) as Es.
    destruct Hin as [<-|Hin].
    + exists [], ((d :: sep') ++ post). exact Es.
    + destruct (H _ Hin) as (a & b & Ep).
      exists (pre ++ (d :: sep') ++ a), b.
      rewrite Es, Ep, <- !app_assoc. reflexivity.
  - destruct Hin as [<-|[]]. exists [], []. rewrite app_nil_r. reflexivity.
Qed.

Section Infix.

Variable P : str -> Prop.
Hypothesis P_infix : forall a x b, P (a ++ x ++ b) -> P x.

Lemma delimiter_pass_on_text (nodes : list TextNode.t) (delimiter : str)
  (text_type : TextType.t) :
  Forall (Markup.on_text P) nodes ->
  Forall (Markup.on_text P) (Spans.delimiter_pass nodes delimiter text_type).
Proof.
  intros Hall. apply Forall_forall. intros node Hin.
  unfold Spans.delimiter_pass in Hin.
  apply in_flat_map in Hin as (old & Hold & Hin).
  rewrite Forall_forall in Hall. specialize (Hall old Hold).
  destruct (TextNode.text_type old) eqn:Ht;
    try (destruct Hin as [<-|[]]; exact Hall).
  unfold Spans.delimiter_spans in Hin. rewrite in_map_iff in Hin.
  destruct Hin as ([i x] & <- & Hin). apply filter_In in Hin as [Hin _].
  apply in_combine_r in Hin. intros _. cbn [TextNode.text snd].
  apply split_piece_infix in Hin as (a & b & E).
  apply (P_infix a x b). rewrite <- E. apply Hall, Ht.
Qed.

Lemma on_text_push (acc : list TextNode.t) (s : str) :
  Forall (Markup.on_text P) acc -> P s ->
  Forall (Markup.on_text P) (acc ++ [TextNode.mk s TextType.TEXT None]).
Proof.
  intros Hacc Hs. apply Forall_app. split; [exact Hacc|].
  constructor; [|constructor]. intros _. exact Hs.
Qed.

Lemma on_text_other (acc : list TextNode.t) (node : TextNode.t) :
  Forall (Markup.on_text P) acc ->
  TextNode.text_type node <> TextType.TEXT ->
  Forall (Markup.on_text P) (acc ++ [node]).
Proof.
  intros Hacc Hn. apply Forall_app. split; [exact Hacc|].
  constructor; [|constructor]. intros Ht. congruence.
Qed.

Lemma image_inner_on_text (images : list (str * str)) :
  forall (original_text : str) (new_nodes : list TextNode.t) st,
    P original_text ->
    Forall (Markup.on_text P) new_nodes ->
    split_nodes_image_inner images original_text new_nodes = Ok st ->
    P (fst st) /\ Forall (Markup.on_text P) (snd st).
Proof.
  induction images as [|[alt url] images IH]; intros r acc st Hr Hacc;
    cbn [split_nodes_image_inner fst snd].
  - intros H. inversion H; subst. auto.
  - destruct (PassFacts.split1_cases r ("![" ++ alt ++ "](" ++ url ++ ")"))
      as [(before & after & -> & Er)| ->];
      cbn [length Nat.eqb negb nth]; [|discriminate].
    apply IH.
    + apply (P_infix (before ++ "![" ++ alt ++ "](" ++ url ++ ")") after []).
      rewrite app_nil_r, <- app_assoc, <- Er. exact Hr.
    + apply on_text_other; [|discriminate].
      destruct (PyFacts.eqb_spec before ""); cbn [negb]; [exact Hacc|].
      apply on_text_push; [exact Hacc|].
      apply (P_infix [] before (("![" ++ alt ++ "](" ++ url ++ ")") ++ after)).
      cbn [app] in *. rewrite <- Er. exact Hr.
Qed.

Lemma link_inner_on_text (links : list (str * str)) :
  forall (original_text : str) (new_nodes : list TextNode.t) st,
    P original_text ->
    Forall (Markup.on_text P) new_nodes ->
    split_nodes_link_inner links original_text new_nodes = Ok st ->
    P (fst st) /\ Forall (Markup.on_text P) (snd st).
Proof.
  induction links as [|[label url] links IH]; intros r acc st Hr Hacc;
    cbn [split_nodes_link_inner fst snd].
  - intros H. inversion H; subst. auto.
  - destruct (PassFacts.split1_cases r ("[" ++ label ++ "](" ++ url ++ ")"))
      as [(before & after & -> & Er)| ->];
      cbn [length Nat.eqb negb nth]; [|discriminate].
    apply IH.
    + apply (P_infix (before ++ "[" ++ label ++ "](" ++ url ++ ")") after []).
      rewrite app_nil_r, <- app_assoc, <- Er. exact Hr.
    + apply on_text_other; [|discriminate].
      destruct (PyFacts.eqb_spec before ""); cbn [negb]; [exact Hacc|].
      apply on_text_push; [exact Hacc|].
      apply (P_infix [] before (("[" ++ label ++ "](" ++ url ++ ")") ++ after)).
      cbn [app] in *. rewrite <- Er. exact Hr.
Qed.

Lemma image_loop_on_text (old_nodes new_nodes out : list TextNode.t) :
  Forall (Markup.on_text P) new_nodes ->
  Forall (Markup.on_text P) old_nodes ->
  split_nodes_image_loop old_nodes new_nodes = Ok out ->
  Forall (Markup.on_text P) out.
Proof.
  intros Hacc Hold. revert new_nodes Hacc.
  induction Hold as [|node nodes Hn _ IH]; intros acc Hacc;
    cbn [split_nodes_image_loop].
  - intros H. inversion H; subst. exact Hacc.
  - assert (Forall (Markup.on_text P) (acc ++ [node])) as Hpass.
    { apply Forall_app. split; [exact Hacc|]. constructor; [exact Hn|].
      constructor. }
    destruct (negb (TextType.eqb (TextNode.text_type node) TextType.TEXT))
      eqn:Ht; [apply IH, Hpass|].
    apply PassFacts.is_text in Ht.
    destruct (length (extract_markdown_images (TextNode.text node)) =? 0);
      [apply IH, Hpass|].
    destruct (split_nodes_image_inner _ _ _) as [[remaining acc']|e] eqn:E;
      cbn [bind]; [|discriminate].
    eapply image_inner_on_text in E; [|exact (Hn Ht)|exact Hacc].
    cbn [fst snd] in E. destruct E as [Hrem Hacc'].
    destruct (PyFacts.eqb_spec remaining ""); cbn [negb]; apply IH;
      [exact Hacc'|].
    apply on_text_push; assumption.
Qed.

Lemma link_loop_on_text (old_nodes new_nodes out : list TextNode.t) :
  Forall (Markup.on_text P) new_nodes ->
  Forall (Markup.on_text P) old_nodes ->
  split_nodes_link_loop old_nodes new_nodes = Ok out ->
  Forall (Markup.on_text P) out.
Proof.
  intros Hacc Hold. revert new_nodes Hacc.
  induction Hold as [|node nodes Hn _ IH]; intros acc Hacc;
    cbn [split_nodes_link_loop].
  - intros H. inversion H; subst. exact Hacc.
  - assert (Forall (Markup.on_text P) (acc ++ [node])) as Hpass.
    { apply Forall_app. split; [exact Hacc|]. constructor; [exact Hn|].
      constructor. }
    destruct (negb (TextType.eqb (TextNode.text_type node) TextType.TEXT))
      eqn:Ht; [apply IH, Hpass|].
    apply PassFacts.is_text in Ht.
    destruct (length (extract_markdown_links (TextNode.text node)) =? 0);
      [apply IH, Hpass|].
    destruct (split_nodes_link_inner _ _ _) as [[remaining acc']|e] eqn:E;
      cbn [bind]; [|discriminate].
    eapply link_inner_on_text in E; [|exact (Hn Ht)|exact Hacc].
    cbn [fst snd] in E. destruct E as [Hrem Hacc'].
    destruct (PyFacts.eqb_spec remaining ""); cbn [negb]; apply IH;
      [exact Hacc'|].
    apply on_text_push; assumption.
Qed.

End Infix.

End CleanFacts.


Module MarkerFacts.

(** *** The image pass leaves no image marker *)

Lemma length_zero {A : Type} (l : list A) : (length l =? 0) = true -> l = [].
Proof. destruct l; [reflexivity|discriminate]. Qed.

Lemma image_inner_clean (images : list (str * str)) :
  forall (original_text : str) (new_nodes : list TextNode.t) st,
    images = findall_images original_text ->
    Forall (Markup.on_text (fun s => findall_images s = [])) new_nodes ->
    split_nodes_image_inner images original_text new_nodes = Ok st ->
    findall_images (fst st) = [] /\
    Forall (Markup.on_text (fun s => findall_images s = [])) (snd st).
Proof.
  induction images as [|[alt url] images IH]; intros r acc st Himg Hacc;
    cbn [split_nodes_image_inner fst snd].
  - intros H. inversion H; subst. auto.
  - symmetry in Himg.
    apply CleanFacts.findall_images_exact in Himg
      as (pre & post & Hs & Hpre & Hrest).
    unfold Py.split1. rewrite Hs. cbn [length Nat.eqb negb nth].
    apply IH; [exact Hrest|].
    apply CleanFacts.on_text_other; [|discriminate].
    destruct (PyFacts.eqb_spec pre ""); cbn [negb]; [exact Hacc|].
    apply CleanFacts.on_text_push; assumption.
Qed.

Lemma image_loop_clean (old_nodes new_nodes out : list TextNode.t) :
  Forall (Markup.on_text (fun s => findall_images s = [])) new_nodes ->
  split_nodes_image_loop old_nodes new_nodes = Ok out ->
  Forall (Markup.on_text (fun s => findall_images s = [])) out.
Proof.
  revert new_nodes. induction old_nodes as [|node nodes IH]; intros acc Hacc;
    cbn [split_nodes_image_loop].
  - intros H. inversion H; subst. exact Hacc.
  - destruct (negb (TextType.eqb (TextNode.text_type node) TextType.TEXT))
      eqn:Ht.
    { apply IH, CleanFacts.on_text_other; [exact Hacc|].
      apply DelimiterFacts.not_text, Ht. }
    destruct (length (extract_markdown_images (TextNode.text node)) =? 0)
      eqn:Hlen.
    { apply IH. apply Forall_app. split; [exact Hacc|].
      constructor; [|constructor]. intros _. apply length_zero, Hlen. }
    destruct (split_nodes_image_inner _ _ _) as [[remaining acc']|e] eqn:E;
      cbn [bind]; [|discriminate].
    eapply image_inner_clean in E; [|reflexivity|exact Hacc].
    cbn [fst snd] in E. destruct E as [Hrem Hacc'].
    destruct (PyFacts.eqb_spec remaining ""); cbn [negb]; apply IH;
      [exact Hacc'|].
    apply CleanFacts.on_text_push; assumption.
Qed.

Lemma image_loop_fixed (old_nodes new_nodes : list TextNode.t) :
  Forall (Markup.on_text (fun s => findall_images s = [])) old_nodes ->
  split_nodes_image_loop old_nodes new_nodes = Ok (new_nodes ++ old_nodes).
Proof.
  intros H. revert new_nodes. induction H as [|node nodes Hn _ IH];
    intros acc; cbn [split_nodes_image_loop].
  - rewrite app_nil_r. reflexivity.
  - replace (acc ++ node :: nodes) with ((acc ++ [node]) ++ nodes)
      by (rewrite <- app_assoc; reflexivity).
    destruct (negb (TextType.eqb (TextNode.text_type node) TextType.TEXT))
      eqn:Ht; [apply IH|].
    apply PassFacts.is_text in Ht. unfold extract_markdown_images.
    rewrite (Hn Ht). cbn [length Nat.eqb]. apply IH.
Qed.

(** *** The link pass, after the image pass, leaves no link marker *)

Lemma link_inner_clean (links : list (str * str)) :
  forall (original_text : str) (new_nodes : list TextNode.t) st,
    links = findall_links false original_text ->
    findall_images original_text = [] ->
    Forall (Markup.on_text (fun s => findall_links false s = [])) new_nodes ->
    split_nodes_link_inner links original_text new_nodes = Ok st ->
    findall_links false (fst st) = [] /\
    Forall (Markup.on_text (fun s => findall_links false s = [])) (snd st).
Proof.
  induction links as [|[label url] links IH]; intros r acc st Hlnk Hi Hacc;
    cbn [split_nodes_link_inner fst snd].
  - intros H. inversion H; subst. auto.
  - symmetry in Hlnk.
    apply CleanFacts.findall_links_exact in Hlnk
      as (pre & post & Hs & Hpre & Hrest); [|exact Hi|discriminate].
    unfold Py.split1. rewrite Hs. cbn [length Nat.eqb negb nth].
    apply IH; [exact Hrest| |].
    + apply PyFacts.split_once_sound in Hs. rewrite Hs, app_assoc in Hi.
      apply (CleanFacts.images_nil_suffix _ _ Hi).
    + apply CleanFacts.on_text_other; [|discriminate].
      destruct (PyFacts.eqb_spec pre ""); cbn [negb]; [exact Hacc|].
      apply CleanFacts.on_text_push; assumption.
Qed.

Lemma link_loop_clean (old_nodes new_nodes out : list TextNode.t) :
  Forall (Markup.on_text (fun s => findall_images s = [])) old_nodes ->
  Forall (Markup.on_text (fun s => findall_links false s = [])) new_nodes ->
  split_nodes_link_loop old_nodes new_nodes = Ok out ->
  Forall (Markup.on_text (fun s => findall_links false s = [])) out.
Proof.
  intros Hold. revert new_nodes.
  induction Hold as [|node nodes Hn _ IH]; intros acc Hacc;
    cbn [split_nodes_link_loop].
  - intros H. inversion H; subst. exact Hacc.
  - destruct (negb (TextType.eqb (TextNode.text_type node) TextType.TEXT))
      eqn:Ht.
    { apply IH, CleanFacts.on_text_other; [exact Hacc|].
      apply DelimiterFacts.not_text, Ht. }
    apply PassFacts.is_text in Ht.
    destruct (length (extract_markdown_links (TextNode.text node)) =? 0)
      eqn:Hlen.
    { apply IH. apply Forall_app. split; [exact Hacc|].
      constructor; [|constructor]. intros _. apply length_zero, Hlen. }
    destruct (split_nodes_link_inner _ _ _) as [[remaining acc']|e] eqn:E;
      cbn [bind]; [|discriminate].
    eapply link_inner_clean in E; [|reflexivity|exact (Hn Ht)|exact Hacc].
    cbn [fst snd] in E. destruct E as [Hrem Hacc'].
    destruct (PyFacts.eqb_spec remaining ""); cbn [negb]; apply IH;
      [exact Hacc'|].
    apply CleanFacts.on_text_push; assumption.
Qed.

(** *** The delimiter passes *)

Lemma pass_free (nodes out : list TextNode.t) (delimiter : str)
  (text_type : TextType.t) :
  delimiter <> [] ->
  split_nodes_delimiter nodes delimiter text_type = Ok out ->
  Forall (Markup.on_text (fun s => Py.contains s delimiter = false)) out.
Proof.
  intros Hd H. apply (@DelimiterMore.loop_ok_inv _ _ _ _ _ Hd) in H.
  cbn [app] in H. subst out.
  pose proof (@DelimiterMore.pass_settled nodes delimiter text_type Hd) as Hs.
  eapply Forall_impl; [|exact Hs]. intros node Hn Ht. apply (Hn Ht).
Qed.

Lemma pass_keeps (P : str -> Prop) (nodes out : list TextNode.t)
  (delimiter : str) (text_type : TextType.t) :
  (forall a x b, P (a ++ x ++ b) -> P x) ->
  delimiter <> [] ->
  Forall (Markup.on_text P) nodes ->
  split_nodes_delimiter nodes delimiter text_type = Ok out ->
  Forall (Markup.on_text P) out.
Proof.
  intros HP Hd Hall H. apply (@DelimiterMore.loop_ok_inv _ _ _ _ _ Hd) in H.
  cbn [app] in H. subst out.
  apply CleanFacts.delimiter_pass_on_text; assumption.
Qed.

(** A non-empty text without markers is its own tokenization. *)
Lemma no_markers_fixed (text : str) :
  text <> [] ->
  Spans.no_markers text ->
  text_to_textnodes text = Ok [TextNode.mk text TextType.TEXT None].
Proof.
  intros Hne (Hb & Hi & Hc & Himg & Hlnk). unfold text_to_textnodes.
  rewrite (@DelimiterFacts.pass_absent text "**" TextType.BOLD
             ltac:(discriminate) Hne Hb).
  cbn [bind].
  rewrite (@DelimiterFacts.pass_absent text "_" TextType.ITALIC
             ltac:(discriminate) Hne Hi).
  cbn [bind].
  rewrite (@DelimiterFacts.pass_absent text "`" TextType.CODE
             ltac:(discriminate) Hne Hc).
  cbn [bind].
  unfold split_nodes_image, split_nodes_link.
  cbn [split_nodes_image_loop TextNode.text_type TextNode.text TextType.eqb negb].
  rewrite Himg. cbn [length Nat.eqb app bind split_nodes_image_loop].
  cbn [split_nodes_link_loop TextNode.text_type TextNode.text TextType.eqb negb].
  rewrite Hlnk. reflexivity.
Qed.

End MarkerFacts.

(** X16: the image pass leaves no image marker behind and is idempotent:
    in its result, no Text span holds a match of the image pattern, and
    running the pass again on the result returns it unchanged. *)
Theorem split_nodes_image_idempotent (old_nodes : list TextNode.t) :
  exists new_nodes,
    split_nodes_image old_nodes = Ok new_nodes /\
    (forall node,
        In node new_nodes ->
        TextNode.text_type node = TextType.TEXT ->
        extract_markdown_images (TextNode.text node) = []) /\
    split_nodes_image new_nodes = Ok new_nodes.
Proof.
  destruct (InlineFacts.image_loop_ok old_nodes []) as [out H].
  pose proof (@MarkerFacts.image_loop_clean old_nodes [] out
                (Forall_nil _) H) as Hclean.
  exists out. split; [exact H|]. split.
  - rewrite Forall_forall in Hclean. exact Hclean.
  - apply (MarkerFacts.image_loop_fixed [] Hclean).
Qed.

(** X17: the tokenizer resolves every marker: in a successful
    tokenization no Text span holds a bold, italic or code delimiter or a
    match of the image or link pattern, and tokenizing the text of such a
    span again gives that one Text span. *)
Theorem text_to_textnodes_text_spans_are_plain (text : str)
  (nodes : list TextNode.t) (node : TextNode.t) :
  text_to_textnodes text = Ok nodes ->
  In node nodes ->
  TextNode.text_type node = TextType.TEXT ->
  Spans.no_markers (TextNode.text node) /\
  text_to_textnodes (TextNode.text node) =
    Ok [TextNode.mk (TextNode.text node) TextType.TEXT None].
Proof.
  intros H Hin Ht.
  assert (TextNode.text node <> []) as Hne.
  { pose proof H as H'. unfold text_to_textnodes in H'.
    apply DocumentFacts.bind_ok in H' as (n1 & H1 & H').
    apply DocumentFacts.bind_ok in H' as (n2 & H2 & H').
    apply DocumentFacts.bind_ok in H' as (n3 & H3 & H').
    apply DocumentFacts.bind_ok in H' as (n4 & H4 & H').
    apply DocumentFacts.bind_ok in H' as (n5 & H5 & H').
    inversion H'; subst nodes. clear H'.
    apply (@SolidFacts.delimiter_pass_solid _ _ "**" _ ltac:(discriminate))
      in H1; [|constructor; [intros Hx; exfalso; apply Hx; reflexivity
                            |constructor]].
    apply (@SolidFacts.delimiter_pass_solid _ _ "_" _ ltac:(discriminate)
             (SolidFacts.weaken H1)) in H2.
    apply (@SolidFacts.delimiter_pass_solid _ _ "`" _ ltac:(discriminate)
             (SolidFacts.weaken H2)) in H3.
    apply (@SolidFacts.image_loop_solid _ [] _ (Forall_nil _) H3) in H4.
    apply (@SolidFacts.link_loop_solid _ [] _ (Forall_nil _) H4) in H5.
    rewrite Forall_forall in H5.
    destruct (H5 node Hin) as [Hs|[Hs|Hs]]; [exact Hs|congruence|congruence]. }
  assert (Spans.no_markers (TextNode.text node)) as Hplain.
  { unfold text_to_textnodes in H.
    apply DocumentFacts.bind_ok in H as (n1 & H1 & H).
    apply DocumentFacts.bind_ok in H as (n2 & H2 & H).
    apply DocumentFacts.bind_ok in H as (n3 & H3 & H).
    apply DocumentFacts.bind_ok in H as (n4 & H4 & H).
    apply DocumentFacts.bind_ok in H as (n5 & H5 & H).
    inversion H; subst nodes. clear H.
    assert (forall d a x b,
               Py.contains (a ++ x ++ b) d = false ->
               Py.contains x d = false) as Hinf
      by (intros d a x b; apply SplitFacts.contains_infix).
    pose proof (@MarkerFacts.pass_free _ _ "**" _ ltac:(discriminate) H1)
      as B1.
    pose proof (@MarkerFacts.pass_keeps _ _ _ "_" _ (Hinf "**")
                  ltac:(discriminate) B1 H2) as B2.
    pose proof (@MarkerFacts.pass_free _ _ "_" _ ltac:(discriminate) H2)
      as I2.
    pose proof (@MarkerFacts.pass_keeps _ _ _ "`" _ (Hinf "**")
                  ltac:(discriminate) B2 H3) as B3.
    pose proof (@MarkerFacts.pass_keeps _ _ _ "`" _ (Hinf "_")
                  ltac:(discriminate) I2 H3) as I3.
    pose proof (@MarkerFacts.pass_free _ _ "`" _ ltac:(discriminate) H3)
      as C3.
    pose proof (@CleanFacts.image_loop_on_text _ (Hinf "**") _ [] _
                  (Forall_nil _) B3 H4) as B4.
    pose proof (@CleanFacts.image_loop_on_text _ (Hinf "_") _ [] _
                  (Forall_nil _) I3 H4) as I4.
    pose proof (@CleanFacts.image_loop_on_text _ (Hinf "`") _ [] _
                  (Forall_nil _) C3 H4) as C4.
    pose proof (@MarkerFacts.image_loop_clean _ [] _ (Forall_nil _) H4)
      as G4.
    pose proof (@CleanFacts.link_loop_on_text _ (Hinf "**") _ [] _
                  (Forall_nil _) B4 H5) as B5.
    pose proof (@CleanFacts.link_loop_on_text _ (Hinf "_") _ [] _
                  (Forall_nil _) I4 H5) as I5.
    pose proof (@CleanFacts.link_loop_on_text _ (Hinf "`") _ [] _
                  (Forall_nil _) C4 H5) as C5.
    pose proof (@CleanFacts.link_loop_on_text _ CleanFacts.images_nil_infix
                  _ [] _ (Forall_nil _) G4 H5) as G5.
    pose proof (@MarkerFacts.link_loop_clean _ [] _ G4 (Forall_nil _) H5)
      as L5.
    rewrite Forall_forall in B5, I5, C5, G5, L5.
    repeat split.
    - apply (B5 node Hin Ht).
    - apply (I5 node Hin Ht).
    - apply (C5 node Hin Ht).
    - apply (G5 node Hin Ht).
    - apply (L5 node Hin Ht). }
  split; [exact Hplain|].
  apply MarkerFacts.no_markers_fixed; assumption.
Qed.

Lemma text_to_textnodes_text_spans_are_plain_witness :
  Spans.no_markers " and " /\
  text_to_textnodes " and " = Ok [TextNode.mk " and " TextType.TEXT None].
Proof.
  apply (@text_to_textnodes_text_spans_are_plain
           "**b** and ![i](u)[l](v)"
           [TextNode.mk "b" TextType.BOLD None;
            TextNode.mk " and " TextType.TEXT None;
            TextNode.mk "i" TextType.IMAGE (Some "u");
            TextNode.mk "l" TextType.LINK (Some "v")]
           (TextNode.mk " and " TextType.TEXT None)).
  - reflexivity.
  - right. left. reflexivity.
  - reflexivity.
Defined.


(** ** The lookbehind of the link pattern *)

Module LookbehindFacts.

(** Only the end of a text decides how it ends. *)
Lemma endswith_app (a b : str) (c : ascii) :
  b <> [] -> Py.endswith (a ++ b) [c] = Py.endswith b [c].
Proof.
  intros Hb. unfold Py.endswith. rewrite rev_app_distr.
  destruct (rev b) as [|x r] eqn:E.
  - apply (f_equal (@rev ascii)) in E. rewrite rev_involutive in E.
    simpl in E. congruence.
  - reflexivity.
Qed.

Lemma endswith_cons (c : ascii) (pre : str) :
  (Ascii.eqb c "!"%char = true -> pre <> []) ->
  Py.endswith pre "!" = false ->
  Py.endswith (c :: pre) "!" = false.
Proof.
  intros Hc Hpre. destruct pre as [|x pre].
  - destruct (Ascii.eqb c "!"%char) eqn:E.
    + destruct (Hc eq_refl). reflexivity.
    + unfold Py.endswith. cbn [rev app Py.startswith]. rewrite E.
      reflexivity.
  - change (c :: x :: pre) with ([c] ++ x :: pre).
    rewrite endswith_app by discriminate. exact Hpre.
Qed.

Lemma endswith_after_marker (label url pre : str) :
  Py.endswith pre "!" = false ->
  Py.endswith (("[" ++ label ++ "](" ++ url ++ ")") ++ pre) "!" = false.
Proof.
  intros Hpre. destruct pre as [|x pre].
  - rewrite app_nil_r.
    replace ("[" ++ label ++ "](" ++ url ++ ")")
      with (("[" ++ label ++ "](" ++ url) ++ ")")
      by (InlineFacts.norm_app; reflexivity).
    rewrite endswith_app by discriminate. reflexivity.
  - rewrite endswith_app by discriminate. exact Hpre.
Qed.

(** Where the scan finds a pair, the text holds its marker, and what
    comes before the marker does not end with an exclamation mark; when
    the scanned text itself follows one, the marker is not at its
    start. *)
Lemma links_not_after_bang (bang : bool) (s : str) (pair : str * str) :
  In pair (findall_links bang s) ->
  exists pre post,
    s = pre ++ ("[" ++ fst pair ++ "](" ++ snd pair ++ ")") ++ post /\
    Py.endswith pre "!" = false /\
    (bang = true -> pre <> []).
Proof.
  funelim (findall_links bang s); intros Hin.
  - destruct Hin.
  - destruct (H _ Hin) as (pre & post & -> & Hpre & Hb).
    exists (c :: pre), post. split; [reflexivity|]. split; [|discriminate].
    apply endswith_cons; assumption.
  - destruct Hin as [<-|Hin].
    + pose proof (match_link_at_sound _ e) as Es.
      exists [], rest. cbn [fst snd]. split; [|split].
      * rewrite Es. InlineFacts.norm_app. reflexivity.
      * reflexivity.
      * discriminate.
    + destruct (H _ Hin) as (pre & post & Er & Hpre & _).
      pose proof (match_link_at_sound _ e) as Es.
      exists (("[" ++ label ++ "](" ++ url ++ ")") ++ pre), post.
      split; [|split].
      * rewrite Es, Er. InlineFacts.norm_app. reflexivity.
      * apply endswith_after_marker, Hpre.
      * discriminate.
  - destruct (H _ Hin) as (pre & post & -> & Hpre & Hb).
    exists (c :: pre), post. split; [reflexivity|]. split; [|discriminate].
    apply endswith_cons; assumption.
Qed.

End LookbehindFacts.


